(** * Life: concept graph, dual-process reasoning and ideology perspectives

    A shallow embedding of the Python package [life]
    ([concept_graph.py], [metacognition.py], [ideology.py]) together with
    the properties its specification states about it.

    Modelling conventions.
    - A Python [str] is a [string] (a sequence of bytes; text is taken to be
      ASCII where case folding, whitespace and lengths are concerned).
    - A Python [dict] is an association list in insertion order with
      distinct keys: assigning to an existing key keeps its position.
    - A Python [float] weight or confidence is a rational number of [Q];
      the literals [0.7], [0.8], [0.5] are [7/10], [8/10], [5/10] and
      comparisons are exact.
    - A raised exception is the [Raise] outcome of a [result]; when a method
      mutates its object the new state is returned next to the outcome.
    - [datetime.now().isoformat()] is an explicit argument [now].
    - [print] output is returned as a string where a property speaks about
      what is reported, and left out otherwise. *)

From Stdlib Require Import List String Ascii Bool Arith ZArith QArith Lia.
From Stdlib Require Import DecimalString Permutation Sorted.
Import ListNotations.

Local Close Scope Q_scope.
Local Open Scope list_scope.
Local Open Scope string_scope.

(** ** Python built-ins used by the package *)

Module Py.

Inductive exn : Type :=
| ValueError (msg : string)
| TypeError (msg : string).

Inductive result (A : Type) : Type :=
| Ok (a : A)
| Raise (e : exn).
Arguments Ok {A} a.
Arguments Raise {A} e.

Definition bind {A B : Type} (m : result A) (k : A -> result B) : result B :=
  match m with
  | Ok a => k a
  | Raise e => Raise e
  end.

(** [for x in xs: acc.append(f(x))] where [f] may raise. *)
Fixpoint mapM {A B : Type} (f : A -> result B) (xs : list A) : result (list B) :=
  match xs with
  | [] => Ok []
  | x :: xs' =>
      bind (f x) (fun y => bind (mapM f xs') (fun ys => Ok (y :: ys)))
  end.

(** *** Strings *)

Definition lower_ascii (c : ascii) : ascii :=
  let n := nat_of_ascii c in
  if andb (Nat.leb 65 n) (Nat.leb n 90) then ascii_of_nat (n + 32) else c.

(** [s.lower()] on ASCII text: the letters [A]..[Z] are folded, every
    other byte is kept.  Python also folds letters outside ASCII, which
    this definition leaves as they are. *)
Fixpoint lower (s : string) : string :=
  match s with
  | EmptyString => EmptyString
  | String c s' => String (lower_ascii c) (lower s')
  end.

(** [s.replace(c, '')] for a one-character [c]. *)
Fixpoint remove_char (c : ascii) (s : string) : string :=
  match s with
  | EmptyString => EmptyString
  | String d s' =>
      if Ascii.eqb c d then remove_char c s' else String d (remove_char c s')
  end.

(** The ASCII characters [str.split()] treats as separators: tab to
    carriage return, the four information separators and the space.
    Python's separators outside ASCII (the no-break space, the line
    separator, ...) are not among them. *)
Definition is_space (c : ascii) : bool :=
  let n := nat_of_ascii c in
  orb (andb (Nat.leb 9 n) (Nat.leb n 13))
      (orb (andb (Nat.leb 28 n) (Nat.leb n 31)) (Nat.eqb n 32)).

Definition flush (cur : string) (acc : list string) : list string :=
  match cur with
  | EmptyString => acc
  | _ => acc ++ [cur]
  end.

Fixpoint split_from (s cur : string) (acc : list string) : list string :=
  match s with
  | EmptyString => flush cur acc
  | String c s' =>
      if is_space c then split_from s' EmptyString (flush cur acc)
      else split_from s' (cur ++ String c EmptyString) acc
  end.

(** [s.split()] *)
Definition split (s : string) : list string := split_from s EmptyString [].

Fixpoint starts_with (p s : string) : bool :=
  match p, s with
  | EmptyString, _ => true
  | String _ _, EmptyString => false
  | String a p', String b s' => andb (Ascii.eqb a b) (starts_with p' s')
  end.

(** [sub in s] *)
Fixpoint contains (sub s : string) : bool :=
  orb (starts_with sub s)
      (match s with
       | EmptyString => false
       | String _ s' => contains sub s'
       end).

(** [s * n] *)
Fixpoint repeat_str (s : string) (n : nat) : string :=
  match n with
  | O => EmptyString
  | S n' => s ++ repeat_str s n'
  end.

(** [sep.join(xs)] *)
Fixpoint join (sep : string) (xs : list string) : string :=
  match xs with
  | [] => EmptyString
  | [x] => x
  | x :: xs' => x ++ sep ++ join sep xs'
  end.

Definition concat_str (xs : list string) : string :=
  fold_right String.append EmptyString xs.

(** [str(n)] for a non-negative integer. *)
Definition str_of_nat (n : nat) : string :=
  NilEmpty.string_of_uint (Nat.to_uint n).

(** [f"{s:<20}"]: pad on the right with spaces up to [w] characters. *)
Definition ljust (w : nat) (s : string) : string :=
  s ++ repeat_str " " (w - String.length s).

Definition mem_str (x : string) (xs : list string) : bool :=
  existsb (String.eqb x) xs.

(** Text all of whose characters are ASCII.  On such text a byte is a
    character, and [lower], [split] and [String.length] are [str.lower()],
    [str.split()] and [len]; on other text Python folds case and splits by
    the Unicode tables, which these definitions do not follow. *)
Definition is_ascii (c : ascii) : bool := Nat.ltb (nat_of_ascii c) 128.

Definition is_ascii_text (s : string) : bool :=
  forallb is_ascii (list_ascii_of_string s).

(** *** Dictionaries *)

Definition dict (V : Type) : Type := list (string * V).

Fixpoint dict_get {V : Type} (d : dict V) (k : string) : option V :=
  match d with
  | [] => None
  | (k', v) :: d' => if String.eqb k k' then Some v else dict_get d' k
  end.

(** [k in d] *)
Definition dict_mem {V : Type} (d : dict V) (k : string) : bool :=
  match dict_get d k with
  | Some _ => true
  | None => false
  end.

(** [d[k] = v] *)
Fixpoint dict_set {V : Type} (d : dict V) (k : string) (v : V) : dict V :=
  match d with
  | [] => [(k, v)]
  | (k', v') :: d' =>
      if String.eqb k k' then (k', v) :: d' else (k', v') :: dict_set d' k v
  end.

(** [d.update(new)] *)
Definition dict_update {V : Type} (d new : dict V) : dict V :=
  fold_left (fun acc kv => dict_set acc (fst kv) (snd kv)) new d.

(** [d.get(k, default)] *)
Definition dict_get_default {V : Type} (d : dict V) (k : string) (default : V) : V :=
  match dict_get d k with
  | Some v => v
  | None => default
  end.

Definition dict_keys {V : Type} (d : dict V) : list string := map fst d.

(** [set(xs)] followed by [len]: the distinct elements, first occurrences kept. *)
Fixpoint distinct (xs : list string) : list string :=
  match xs with
  | [] => []
  | x :: xs' => x :: filter (fun y => negb (String.eqb x y)) (distinct xs')
  end.

End Py.

Import Py.

Definition nl : string := String (ascii_of_nat 10) EmptyString.

(** ** networkx: the part of [DiGraph] and of the shortest-path search the
    package calls.  networkx is a dependency of the package, not part of it;
    the definitions follow networkx 3.x. *)

Module Nx.

(** Attribute values ([Any] in the source). *)
Inductive value : Type :=
| VStr (s : string)
| VNum (q : Q)
| VBool (b : bool)
| VNone.

(** [node] is [G._node]: node name to attribute dictionary, in insertion
    order.  [adj] holds the edges [(u, v, relationship)] in the order in
    which each ordered pair was first connected; [G._succ[u]] and
    [G._pred[v]] are its restrictions to source [u] and to target [v], and
    iterate in that order. *)
Record DiGraph : Type := mkDiGraph {
  node : dict (dict value);
  adj : list (string * string * string)
}.

(** [nx.DiGraph()] *)
Definition empty : DiGraph := {| node := []; adj := [] |}.

(** [n in G] *)
Definition has_node (G : DiGraph) (n : string) : bool := dict_mem (node G) n.

(** [G.nodes()] *)
Definition nodes (G : DiGraph) : list string := dict_keys (node G).

Definition number_of_nodes (G : DiGraph) : nat := List.length (node G).
Definition number_of_edges (G : DiGraph) : nat := List.length (adj G).

(** [G.add_node(n, **attr)]: a new node starts from an empty attribute
    dictionary; in both cases the dictionary is updated with [attr]. *)
Definition add_node (G : DiGraph) (n : string) (attr : dict value) : DiGraph :=
  {| node := dict_set (node G) n (dict_update (dict_get_default (node G) n []) attr);
     adj := adj G |}.

Fixpoint set_edge (es : list (string * string * string)) (u v r : string)
  : list (string * string * string) :=
  match es with
  | [] => [(u, v, r)]
  | (u', v', r') :: es' =>
      if andb (String.eqb u u') (String.eqb v v') then (u', v', r) :: es'
      else (u', v', r') :: set_edge es' u v r
  end.

Definition ensure_node (d : dict (dict value)) (n : string) : dict (dict value) :=
  if dict_mem d n then d else (d ++ [(n, [])])%list.

(** [G.add_edge(u, v, relationship=r)] *)
Definition add_edge (G : DiGraph) (u v r : string) : DiGraph :=
  {| node := ensure_node (ensure_node (node G) u) v;
     adj := set_edge (adj G) u v r |}.

(** [G.successors(u)] *)
Definition successors (G : DiGraph) (u : string) : list string :=
  map (fun e => snd (fst e)) (filter (fun e => String.eqb (fst (fst e)) u) (adj G)).

(** [G.predecessors(v)] *)
Definition predecessors (G : DiGraph) (v : string) : list string :=
  map (fun e => fst (fst e)) (filter (fun e => String.eqb (snd (fst e)) v) (adj G)).

(** [G[u][v]['relationship']] *)
Fixpoint relationship_in (es : list (string * string * string)) (u v : string)
  : option string :=
  match es with
  | [] => None
  | (u', v', r) :: es' =>
      if andb (String.eqb u u') (String.eqb v v') then Some r
      else relationship_in es' u v
  end.

Definition relationship (G : DiGraph) (u v : string) : option string :=
  relationship_in (adj G) u v.

Definition has_edge (G : DiGraph) (u v : string) : bool :=
  match relationship G u v with
  | Some _ => true
  | None => false
  end.

(** Every edge joins two nodes of the graph, as [add_edge] ensures. *)
Definition edges_closed (G : DiGraph) : Prop :=
  forall u v r, In (u, v, r) (adj G) -> has_node G u = true /\ has_node G v = true.

(** *** [_bidirectional_pred_succ] and [bidirectional_shortest_path] *)

(** The search dictionaries [pred] and [succ]: node to its parent in the
    search, [None] for the root. *)
Definition parents : Type := dict (option string).

Inductive scan : Type :=
| Found (seen : parents) (w : string)
| Continue (seen : parents) (fringe : list string).

(** The inner loop over the neighbours [ws] of [v]:
    [if w not in seen: fringe.append(w); seen[w] = v] and then
    [if w in other: return]. *)
Fixpoint scan_neighbours (ws : list string) (v : string)
    (seen other : parents) (fringe : list string) : scan :=
  match ws with
  | [] => Continue seen fringe
  | w :: ws' =>
      let seen' := if dict_mem seen w then seen else dict_set seen w (Some v) in
      let fringe' := if dict_mem seen w then fringe else (fringe ++ [w])%list in
      if dict_mem other w then Found seen' w
      else scan_neighbours ws' v seen' other fringe'
  end.

(** The loop [for v in this_level] around it. *)
Fixpoint scan_level (nbrs : string -> list string) (this_level : list string)
    (seen other : parents) (fringe : list string) : scan :=
  match this_level with
  | [] => Continue seen fringe
  | v :: vs =>
      match scan_neighbours (nbrs v) v seen other fringe with
      | Found seen' w => Found seen' w
      | Continue seen' fringe' => scan_level nbrs vs seen' other fringe'
      end
  end.

Inductive search : Type :=
| Meet (pred succ : parents) (w : string)
| NoPath
| OutOfFuel.

(** [while forward_fringe and reverse_fringe], expanding the smaller
    fringe, the forward one on a tie. *)
Fixpoint search_loop (fuel : nat) (G : DiGraph) (pred succ : parents)
    (forward_fringe reverse_fringe : list string) : search :=
  match fuel with
  | O => OutOfFuel
  | S fuel' =>
      match forward_fringe, reverse_fringe with
      | [], _ => NoPath
      | _, [] => NoPath
      | _, _ =>
          if Nat.leb (List.length forward_fringe) (List.length reverse_fringe) then
            match scan_level (successors G) forward_fringe pred succ [] with
            | Found pred' w => Meet pred' succ w
            | Continue pred' fringe' =>
                search_loop fuel' G pred' succ fringe' reverse_fringe
            end
          else
            match scan_level (predecessors G) reverse_fringe succ pred [] with
            | Found succ' w => Meet pred succ' w
            | Continue succ' fringe' =>
                search_loop fuel' G pred succ' forward_fringe fringe'
            end
      end
  end.

(** Every round but the last marks a node not yet marked on its side, so
    twice the number of nodes, and one more, bounds the rounds. *)
Definition search_fuel (G : DiGraph) : nat := S (2 * number_of_nodes G).

Definition _bidirectional_pred_succ (G : DiGraph) (source target : string) : search :=
  if String.eqb target source then Meet [(target, None)] [(source, None)] source
  else search_loop (search_fuel G) G [(source, None)] [(target, None)] [source] [target].

(** [while w is not None: path.append(w); w = parent[w]] *)
Fixpoint walk (fuel : nat) (parent : parents) (w : option string) : list string :=
  match fuel, w with
  | S fuel', Some x =>
      x :: walk fuel' parent (match dict_get parent x with
                              | Some p => p
                              | None => None
                              end)
  | _, _ => []
  end.

Inductive path_result : Type :=
| Path (p : list string)
| NetworkXNoPath (msg : string)
| NodeNotFound (msg : string)
| Unfinished.

(** [nx.shortest_path(G, source, target)], which for two given endpoints
    and no weight is [bidirectional_shortest_path].  The wording of the
    [NodeNotFound] message is the library's and has changed between its
    releases; it is the current one here, and nothing below depends on
    it. *)
Definition shortest_path (G : DiGraph) (source target : string) : path_result :=
  if negb (has_node G source) then
    NodeNotFound ("Source " ++ source ++ " is not in G")
  else if negb (has_node G target) then
    NodeNotFound ("Target " ++ target ++ " is not in G")
  else
    match _bidirectional_pred_succ G source target with
    | Meet pred succ w =>
        let back := rev (walk (S (List.length pred)) pred (Some w)) in
        let last := List.last back w in
        Path (back ++ walk (S (List.length succ)) succ
                        (match dict_get succ last with
                         | Some p => p
                         | None => None
                         end))%list
    | NoPath => NetworkXNoPath ("No path between " ++ source ++ " and " ++ target ++ ".")
    | OutOfFuel => Unfinished
    end.

(** *** [Graph.to_undirected] and [single_source_shortest_path_length] *)

(** The neighbours of [x] in [G.to_undirected()]: the nodes joined to [x] by
    an edge in either direction. *)
Definition undirected_neighbours (G : DiGraph) (x : string) : list string :=
  (successors G x ++ predecessors G x)%list.

(** [for w in adj[v]: if w not in seen: seen.add(w); nextlevel.append(w)] *)
Fixpoint visit (ws seen nextlevel : list string) : list string * list string :=
  match ws with
  | [] => (seen, nextlevel)
  | w :: ws' =>
      if mem_str w seen then visit ws' seen nextlevel
      else visit ws' (seen ++ [w])%list (nextlevel ++ [w])%list
  end.

(** [for v in thislevel] around it. *)
Fixpoint visit_level (nbrs : string -> list string) (thislevel seen nextlevel : list string)
  : list string * list string :=
  match thislevel with
  | [] => (seen, nextlevel)
  | v :: vs =>
      let '(seen', nextlevel') := visit (nbrs v) seen nextlevel in
      visit_level nbrs vs seen' nextlevel'
  end.

(** [while nextlevel and cutoff > level], with [remaining] the rounds still
    allowed by the cutoff; each node found is paired with its distance. *)
Fixpoint levels (remaining level : nat) (nbrs : string -> list string)
    (seen thislevel : list string) : list (string * nat) :=
  match remaining with
  | O => []
  | S remaining' =>
      match thislevel with
      | [] => []
      | _ =>
          let '(seen', nextlevel) := visit_level nbrs thislevel seen [] in
          (map (fun w => (w, S level)) nextlevel
           ++ levels remaining' (S level) nbrs seen' nextlevel)%list
      end
  end.

(** [nx.single_source_shortest_path_length(G.to_undirected(), source, cutoff)]
    for a [source] in the graph; a negative cutoff allows no round. *)
Definition single_source_shortest_path_length (G : DiGraph) (source : string) (cutoff : Z)
  : list (string * nat) :=
  (source, 0) :: levels (Z.to_nat cutoff) 0 (undirected_neighbours G) [source] [source].

End Nx.

(** ** concept_graph.py: [ConceptGraph] *)

Module ConceptGraph.

Import Nx.

(** [ConceptGraph()], whose only field is [self.graph]. *)
Definition init : DiGraph := Nx.empty.

(** The keyword names an extra attribute cannot take: the parameters of
    [add_concept] itself ([self], [name], [concept_type], [definition]) and
    what its call [add_node(name, type=..., definition=..., learned_at=...,
    **attributes)] already binds.  A keyword argument with one of these
    names is a [TypeError], "got multiple values", at one call or the
    other, before anything is stored. *)
Definition bound_keywords : list string :=
  ["self"; "name"; "concept_type"; "definition";
   "node_for_adding"; "type"; "learned_at"].

(** The keyword arguments [add_concept] hands to [add_node]. *)
Definition node_kwargs (concept_type definition now : string) (attributes : dict value)
  : dict value :=
  ([("type", VStr concept_type);
    ("definition", VStr definition);
    ("learned_at", VStr now)] ++ attributes)%list.

(** [add_concept(name, concept_type, definition, **attributes)]: the graph
    afterwards and the printed line. *)
Definition add_concept (G : DiGraph) (name concept_type definition now : string)
    (attributes : dict value) : DiGraph * result string :=
  match find (fun k => mem_str k bound_keywords) (dict_keys attributes) with
  | Some k => (G, Raise (TypeError ("got multiple values for keyword argument '" ++ k ++ "'")%string))
  | None =>
      (add_node G name (node_kwargs concept_type definition now attributes),
       Ok ("✓ Learned concept: " ++ name ++ " (" ++ concept_type ++ ")")%string)
  end.

Definition not_found_warning : string :=
  "⚠ One or both concepts not found. Teach them first!".

(** [connect_concepts(from_concept, to_concept, relationship)]: the graph
    afterwards and the printed line. *)
Definition connect_concepts (G : DiGraph) (from_concept to_concept relationship : string)
  : DiGraph * string :=
  if orb (negb (has_node G from_concept)) (negb (has_node G to_concept)) then
    (G, not_found_warning)
  else
    (add_edge G from_concept to_concept relationship,
     ("✓ Connected: " ++ from_concept ++ " --[" ++ relationship ++ "]--> " ++ to_concept)%string).

(** [get_concept(name)] *)
Definition get_concept (G : DiGraph) (name : string) : option (dict value) :=
  if negb (has_node G name) then None
  else Some (dict_get_default (node G) name []).

Definition label (G : DiGraph) (u v : string) : string :=
  match relationship G u v with
  | Some r => r
  | None => ""
  end.

Definition rule : string := repeat_str "=" 50.

(** [explain_concept(concept)].  The [definition] attribute is always a
    [str]: every [add_concept] writes it, and [**attributes] cannot carry
    that key. *)
Definition explain_concept (G : DiGraph) (concept : string) : string :=
  if negb (has_node G concept) then
    "I haven't learned about '" ++ concept ++ "' yet. Can you teach me?"
  else
    let attrs := dict_get_default (node G) concept [] in
    let outgoing := map (fun target => (target, label G concept target)) (successors G concept) in
    let incoming := map (fun source => (source, label G source concept)) (predecessors G concept) in
    nl ++ rule ++ nl ++ "📖 " ++ concept ++ nl ++ rule ++ nl ++ nl
    ++ (match dict_get attrs "definition" with
        | Some (VStr (String c d)) => "Definition: " ++ String c d ++ nl ++ nl
        | _ => ""
        end)
    ++ (match outgoing with
        | [] => ""
        | _ => "This concept:" ++ nl
               ++ concat_str (map (fun tr => "  • " ++ snd tr ++ " → " ++ fst tr ++ nl) outgoing)
               ++ nl
        end)
    ++ (match incoming with
        | [] => ""
        | _ => "Related from:" ++ nl
               ++ concat_str (map (fun sr => "  • " ++ fst sr ++ " --[" ++ snd sr ++ "]→ this" ++ nl) incoming)
        end).

(** The loop [for i in range(len(path) - 1)] of [find_path]. *)
Fixpoint render_steps (G : DiGraph) (path : list string) : string :=
  match path with
  | source :: ((target :: _) as rest) =>
      "  " ++ source ++ " --[" ++ label G source target ++ "]--> " ++ target ++ nl
      ++ render_steps G rest
  | _ => ""
  end.

(** [find_path(from_concept, to_concept)] *)
Definition find_path (G : DiGraph) (from_concept to_concept : string) : string :=
  match shortest_path G from_concept to_concept with
  | Path path =>
      nl ++ "🔗 Reasoning path from '" ++ from_concept ++ "' to '" ++ to_concept ++ "':" ++ nl
      ++ render_steps G path
  | NetworkXNoPath _ =>
      "No connection found between '" ++ from_concept ++ "' and '" ++ to_concept ++ "'"
  | NodeNotFound e => "Concept not found: " ++ e
  | Unfinished => ""
  end.

(** [get_related_concepts(concept, depth)].  The source returns
    [list(related)] for a set [related], whose order Python leaves open;
    the nodes are listed here in the order the search finds them. *)
Definition get_related_concepts (G : DiGraph) (concept : string) (depth : Z) : list string :=
  if negb (has_node G concept) then []
  else
    map fst (filter (fun nd => negb (String.eqb (fst nd) concept))
               (single_source_shortest_path_length G concept depth)).

(** [==] on attribute values: [True] and [False] equal the numbers 1 and 0. *)
Definition num_of_bool (b : bool) : Q := if b then (1 # 1)%Q else (0 # 1)%Q.

Definition value_eqb (a b : value) : bool :=
  match a, b with
  | VStr x, VStr y => String.eqb x y
  | VNum x, VNum y => Qeq_bool x y
  | VBool x, VBool y => Bool.eqb x y
  | VNum x, VBool y => Qeq_bool x (num_of_bool y)
  | VBool x, VNum y => Qeq_bool (num_of_bool x) y
  | VNone, VNone => true
  | _, _ => false
  end.

(** [set(vs)]: the values up to [==], first occurrences kept. *)
Fixpoint distinct_values (vs : list value) : list value :=
  match vs with
  | [] => []
  | v :: vs' => v :: filter (fun w => negb (value_eqb v w)) (distinct_values vs')
  end.

Record statistics : Type := mkStatistics {
  total_concepts : nat;
  total_relationships : nat;
  concept_types : nat
}.

(** [get_statistics()] *)
Definition get_statistics (G : DiGraph) : statistics :=
  {| total_concepts := number_of_nodes G;
     total_relationships := number_of_edges G;
     concept_types :=
       List.length
         (distinct_values
            (map (fun na => dict_get_default (snd na) "type" (VStr "unknown")) (node G))) |}.

End ConceptGraph.

(** ** metacognition.py: [MetacognitionSpace] *)

Module Metacognition.

Import Nx.

Record log_entry : Type := mkEntry {
  question : string;
  timestamp : string;
  mode : string
}.

Record MetacognitionSpace : Type := mkSpace {
  kb : DiGraph;
  confidence_threshold : Q;
  thinking_log : list log_entry
}.

Definition default_threshold : Q := (7 # 10)%Q.

(** [MetacognitionSpace(knowledge_graph, confidence_threshold)] *)
Definition init (knowledge_graph : DiGraph) (threshold : Q) : MetacognitionSpace :=
  {| kb := knowledge_graph; confidence_threshold := threshold; thinking_log := [] |}.

Definition stop_words : list string :=
  ["what"; "is"; "are"; "the"; "a"; "an"; "how"; "does";
   "do"; "can"; "could"; "would"; "should"; "about"; "to"].

(** [_extract_keywords(question)].  [len(w)] is [String.length w], the
    number of bytes, which is the number of characters for ASCII text. *)
Definition _extract_keywords (question : string) : list string :=
  let words := split (remove_char "," (remove_char "?" (lower question))) in
  filter (fun w => andb (negb (mem_str w stop_words)) (Nat.ltb 2 (String.length w))) words.

(** [[n for n in self.kb.graph.nodes() if any(w in n.lower() for w in words)]] *)
Definition relevant_concepts (G : DiGraph) (words : list string) : list string :=
  filter (fun n => existsb (fun w => contains w (lower n)) words) (nodes G).

Definition dont_know : string := "I don't know yet.".

(** [_fast_thinking(question)]: the answer and its confidence. *)
Definition _fast_thinking (m : MetacognitionSpace) (question : string) : string * Q :=
  let words := _extract_keywords question in
  match relevant_concepts (kb m) words with
  | [] => (dont_know, (0 # 1)%Q)
  | [c] => (ConceptGraph.explain_concept (kb m) c, (8 # 10)%Q)
  | relevant =>
      (join nl (map (ConceptGraph.explain_concept (kb m)) (firstn 3 relevant)), (5 # 10)%Q)
  end.

(** [_generate_learning_request(question)] *)
Definition _generate_learning_request (question : string) : string :=
  "I need more knowledge to answer: '" ++ question ++ "'" ++ nl ++ nl
  ++ "Can you teach me the relevant concepts? Use:" ++ nl
  ++ "  kb.add_concept(name, type, definition)" ++ nl
  ++ "  kb.connect_concepts(concept1, concept2, relationship)".

(** The paths appended by
    [for i, concept in enumerate(relevant): for other in relevant[i+1:]]. *)
Fixpoint pair_paths (G : DiGraph) (relevant : list string) : list string :=
  match relevant with
  | [] => []
  | concept :: rest =>
      (filter (fun path => negb (contains "No connection" path))
              (map (ConceptGraph.find_path G concept) rest)
       ++ pair_paths G rest)%list
  end.

Definition deep_entry (q now : string) : log_entry :=
  {| question := q; timestamp := now; mode := "deep_thinking" |}.

(** [self.thinking_log.append({...})] *)
Definition logged (m : MetacognitionSpace) (q now : string) : MetacognitionSpace :=
  {| kb := kb m;
     confidence_threshold := confidence_threshold m;
     thinking_log := (thinking_log m ++ [deep_entry q now])%list |}.

(** [_slow_thinking(question)]: the space afterwards and the answer. *)
Definition _slow_thinking (m : MetacognitionSpace) (q now : string)
  : MetacognitionSpace * string :=
  let m' := logged m q now in
  let words := _extract_keywords q in
  let relevant := relevant_concepts (kb m) words in
  match relevant with
  | [] => (m', _generate_learning_request q)
  | _ =>
      let reasoning_chain :=
        (map (ConceptGraph.explain_concept (kb m)) relevant ++ pair_paths (kb m) relevant)%list in
      (m', nl ++ "🧠 Deep Analysis:" ++ nl ++ join nl reasoning_chain)
  end.

(** [a > b] on confidences. *)
Definition gt (a b : Q) : bool := negb (Qle_bool a b).

(** [process_question(question)]: the space afterwards and the answer. *)
Definition process_question (m : MetacognitionSpace) (q now : string)
  : MetacognitionSpace * string :=
  let '(quick_answer, confidence) := _fast_thinking m q in
  if gt confidence (confidence_threshold m) then (m, quick_answer)
  else _slow_thinking m q now.

(** [get_thinking_log()] *)
Definition get_thinking_log (m : MetacognitionSpace) : list log_entry := thinking_log m.

(** [clear_log()] *)
Definition clear_log (m : MetacognitionSpace) : MetacognitionSpace :=
  {| kb := kb m; confidence_threshold := confidence_threshold m; thinking_log := [] |}.

(** [set_confidence_threshold(threshold)] *)
Definition set_confidence_threshold (m : MetacognitionSpace) (threshold : Q)
  : MetacognitionSpace * result unit :=
  if negb (andb (Qle_bool (0 # 1)%Q threshold) (Qle_bool threshold (1 # 1)%Q)) then
    (m, Raise (ValueError "Threshold must be between 0 and 1"))
  else
    ({| kb := kb m; confidence_threshold := threshold; thinking_log := thinking_log m |},
     Ok tt).

Record confidence_analysis : Type := mkAnalysis {
  confidence : Q;
  will_use_system : nat;
  relevant_concepts_found : nat;
  keywords_extracted : list string
}.

(** [analyze_confidence(question)] *)
Definition analyze_confidence (m : MetacognitionSpace) (q : string) : confidence_analysis :=
  let confidence := snd (_fast_thinking m q) in
  let words := _extract_keywords q in
  let relevant := relevant_concepts (kb m) words in
  {| confidence := confidence;
     will_use_system := if gt confidence (confidence_threshold m) then 1 else 2;
     relevant_concepts_found := List.length relevant;
     keywords_extracted := words |}.

End Metacognition.

(** ** ideology.py: [IdeologyFramework] *)

Module Ideology.

(** One entry of [self.ideologies]. *)
Record ideology : Type := mkIdeology {
  values : dict Q;
  principles : list string;
  description : string;
  examples : list string
}.

(** [self.ideologies] *)
Definition store : Type := dict ideology.

(** [IdeologyFramework()] *)
Definition init : store := [].

(** [0 <= v <= 1] *)
Definition in_unit_interval (v : Q) : bool :=
  andb (Qle_bool (0 # 1)%Q v) (Qle_bool v (1 # 1)%Q).

Definition validation_error : exn := ValueError "Core values must be between 0 and 1".

(** [teach_ideology(name, core_values, principles, description, examples)]:
    the store afterwards and the printed line. *)
Definition teach_ideology (st : store) (name : string) (core_values : dict Q)
    (principles : list string) (description : string) (examples : option (list string))
  : store * result string :=
  if negb (forallb in_unit_interval (map snd core_values)) then
    (st, Raise validation_error)
  else
    (dict_set st name {| values := core_values;
                         principles := principles;
                         description := description;
                         examples := match examples with
                                     | Some (e :: es) => e :: es
                                     | _ => []
                                     end |},
     Ok ("✓ Learned ideology: " ++ name)).

(** [get_ideology(name)] *)
Definition get_ideology (st : store) (name : string) : option ideology := dict_get st name.

(** [list_ideologies()] *)
Definition list_ideologies (st : store) : list string := dict_keys st.

(** [remove_ideology(name)] *)
Definition remove_ideology (st : store) (name : string) : store * bool :=
  if dict_mem st name then
    (filter (fun kv => negb (String.eqb name (fst kv))) st, true)
  else (st, false).

(** [a > b] on weights. *)
Definition gt (a b : Q) : bool := negb (Qle_bool a b).

Fixpoint insert_desc (x : string * Q) (l : list (string * Q)) : list (string * Q) :=
  match l with
  | [] => [x]
  | y :: l' => if gt (snd y) (snd x) then y :: insert_desc x l' else x :: y :: l'
  end.

(** [sorted(items, key=lambda x: x[1], reverse=True)]: descending by
    weight, equal weights in their original order. *)
Fixpoint sorted_desc (items : list (string * Q)) : list (string * Q) :=
  match items with
  | [] => []
  | x :: xs => insert_desc x (sorted_desc xs)
  end.

Definition value_keywords : dict (list string) :=
  [("freedom", ["liberty"; "choice"; "autonomy"]);
   ("equality", ["equal"; "fair"; "equitable"]);
   ("security", ["safe"; "protect"; "stability"]);
   ("property", ["ownership"; "private"; "assets"]);
   ("collective", ["common"; "shared"; "together"])].

(** [_assess_value_impact(situation, value)] *)
Definition _assess_value_impact (situation value : string) : string :=
  let situation_lower := lower situation in
  let value_lower := lower value in
  if contains value_lower situation_lower then "Directly affected ⚠️"
  else
    let keywords := dict_get_default value_keywords value_lower [] in
    if existsb (fun kw => contains kw situation_lower) keywords then "Indirectly impacted ⚡"
    else "Minimal impact ○".

Definition government_words : list string := ["government"; "regulation"; "law"; "mandate"].
Definition economy_words : list string := ["economy"; "market"; "business"; "wealth"].

Definition oppose_intervention : string :=
  "  → Oppose government intervention. Preserve individual freedom and voluntary action.".
Definition conditional_support : string :=
  "  → Support if it promotes collective welfare and reduces inequality.".
Definition free_market : string :=
  "  → Let markets operate freely. Minimize restrictions on economic activity.".
Definition equitable_distribution : string :=
  "  → Ensure economic decisions promote equitable distribution.".

(** [any(word in situation_lower for word in words)] *)
Definition mentions (words : list string) (situation_lower : string) : bool :=
  existsb (fun word => contains word situation_lower) words.

(** [values.get(k, 0)] *)
Definition weight (values : dict Q) (k : string) : Q := dict_get_default values k (0 # 1)%Q.

Fixpoint max_from (best : string * Q) (items : list (string * Q)) : string * Q :=
  match items with
  | [] => best
  | x :: xs => max_from (if gt (snd x) (snd best) then x else best) xs
  end.

(** [max(items, key=lambda x: x[1])]: the first item of greatest weight;
    a [ValueError] on no items (the message is CPython's). *)
Definition max_item (items : list (string * Q)) : result (string * Q) :=
  match items with
  | [] => Raise (ValueError "max() arg is an empty sequence")
  | x :: xs => Ok (max_from x xs)
  end.

(** The first [if] of [_generate_recommendation]: [Some] text when it
    returns, [None] when control falls through. *)
Definition government_rule (situation_lower : string) (values : dict Q) : option string :=
  if mentions government_words situation_lower then
    if orb (gt (weight values "limited_government") (7 # 10)%Q)
           (gt (weight values "freedom") (8 # 10)%Q)
    then Some oppose_intervention
    else if orb (gt (weight values "collective_welfare") (7 # 10)%Q)
                (gt (weight values "equality") (8 # 10)%Q)
    then Some conditional_support
    else None
  else None.

(** The second [if], likewise. *)
Definition economy_rule (situation_lower : string) (values : dict Q) : option string :=
  if mentions economy_words situation_lower then
    if gt (weight values "free_markets") (7 # 10)%Q then Some free_market
    else if gt (weight values "equality") (8 # 10)%Q then Some equitable_distribution
    else None
  else None.

(** [_generate_recommendation(situation, values, principles)] *)
Definition _generate_recommendation (situation : string) (values : dict Q)
    (principles : list string) : result string :=
  let situation_lower := lower situation in
  match government_rule situation_lower values with
  | Some r => Ok r
  | None =>
      match economy_rule situation_lower values with
      | Some r => Ok r
      | None =>
          bind (max_item values) (fun top =>
            Ok ("  → Prioritize " ++ fst top ++ " in decision-making process."))
      end
  end.

Definition rule : string := repeat_str "=" 60.
Definition dashes : string := repeat_str "-" 60.

(** [for i, principle in enumerate(principles, 1)] *)
Fixpoint numbered (i : nat) (principles : list string) : string :=
  match principles with
  | [] => ""
  | p :: ps => "  " ++ str_of_nat i ++ ". " ++ p ++ nl ++ numbered (S i) ps
  end.

Section Rendering.

(** How Python prints a weight: [bar] is ['█' * int(importance * 10)] and
    [fixed2] is [f"{importance:.2f}"]. *)
Variable bar : Q -> string.
Variable fixed2 : Q -> string.

(** The report of [analyze_from_perspective] up to the recommendation. *)
Definition report_body (situation ideology_name : string) (i : ideology) : string :=
  let sorted_values := sorted_desc (values i) in
  nl ++ rule ++ nl ++ "🎭 " ++ ideology_name ++ " Perspective" ++ nl ++ rule ++ nl ++ nl
  ++ (match description i with
      | EmptyString => ""
      | d => "Overview: " ++ d ++ nl ++ nl
      end)
  ++ "Core Values (by priority):" ++ nl
  ++ concat_str (map (fun vi => "  • " ++ ljust 20 (fst vi) ++ " " ++ bar (snd vi)
                                ++ " " ++ fixed2 (snd vi) ++ nl) sorted_values)
  ++ nl ++ "📋 Situation: " ++ situation ++ nl ++ nl
  ++ "Value Impact Assessment:" ++ nl
  ++ concat_str (map (fun vi => "  • " ++ fst vi ++ ": "
                                ++ _assess_value_impact situation (fst vi) ++ nl) sorted_values)
  ++ nl ++ "Relevant Principles:" ++ nl
  ++ numbered 1 (principles i).

(** The whole report, given the recommendation. *)
Definition report (situation ideology_name : string) (i : ideology)
    (recommendation : string) : string :=
  report_body situation ideology_name i
  ++ nl ++ "💡 Recommendation:" ++ nl ++ recommendation ++ nl.

(** [analyze_from_perspective(situation, ideology_name)] *)
Definition analyze_from_perspective (st : store) (situation ideology_name : string)
  : result string :=
  match dict_get st ideology_name with
  | None => Ok ("I haven't learned about " ++ ideology_name ++ " yet.")
  | Some i =>
      bind (_generate_recommendation situation (values i) (principles i))
        (fun recommendation => Ok (report situation ideology_name i recommendation))
  end.

(** [self.ideologies[ideology]['values'].keys()] *)
Definition value_names (st : store) (ideology_name : string) : list string :=
  match dict_get st ideology_name with
  | Some i => dict_keys (values i)
  | None => []
  end.

(** [_synthesize_perspectives(situation, ideologies)] *)
Definition _synthesize_perspectives (st : store) (situation : string)
    (ideologies : list string) : string :=
  let valid_ideologies := filter (dict_mem st) ideologies in
  match valid_ideologies with
  | [] => "No valid ideologies to synthesize."
  | _ =>
      let all_values := distinct (flat_map (value_names st) valid_ideologies) in
      "Different perspectives reveal:" ++ nl
      ++ "  • " ++ str_of_nat (List.length all_values) ++ " distinct values at play" ++ nl
      ++ "  • " ++ str_of_nat (List.length valid_ideologies) ++ " competing frameworks" ++ nl
      ++ "  • Decision requires balancing trade-offs" ++ nl ++ nl
      ++ "Consider: What values matter most in this specific context?"
  end.

(** The loop [for ideology in ideologies_to_compare] of
    [compare_perspectives], on the text built so far. *)
Fixpoint compare_loop (st : store) (situation : string) (ideologies : list string)
    (comparison : string) : result string :=
  match ideologies with
  | [] => Ok comparison
  | i :: rest =>
      if dict_mem st i then
        bind (analyze_from_perspective st situation i) (fun analysis =>
          compare_loop st situation rest (comparison ++ analysis ++ nl ++ dashes ++ nl))
      else compare_loop st situation rest comparison
  end.

Definition compare_header (situation : string) : string :=
  nl ++ rule ++ nl ++ "🔄 Multi-Perspective Analysis" ++ nl ++ rule ++ nl
  ++ nl ++ "📋 Situation: " ++ situation ++ nl ++ nl.

(** [compare_perspectives(situation, ideologies_to_compare)] *)
Definition compare_perspectives (st : store) (situation : string)
    (ideologies_to_compare : list string) : result string :=
  bind (compare_loop st situation ideologies_to_compare (compare_header situation))
    (fun comparison =>
       Ok (comparison ++ nl ++ "🎯 Synthesis:" ++ nl
           ++ _synthesize_perspectives st situation ideologies_to_compare)).

End Rendering.

End Ideology.

(** ** The specification's wording of two rules, for comparison with the code *)

Module IdeologySpec.

Import Ideology.

(** The rule cascade of the Perspective Analyzer as the specification lists
    it, rules (a) to (d): a condition on the lower-cased situation and the
    weights, and the recommendation it selects. *)
Definition cascade (situation_lower : string) (values : dict Q) : list (bool * string) :=
  [(andb (mentions government_words situation_lower)
         (orb (gt (weight values "limited_government") (7 # 10)%Q)
              (gt (weight values "freedom") (8 # 10)%Q)),
    oppose_intervention);
   (andb (mentions government_words situation_lower)
         (orb (gt (weight values "collective_welfare") (7 # 10)%Q)
              (gt (weight values "equality") (8 # 10)%Q)),
    conditional_support);
   (andb (mentions economy_words situation_lower)
         (gt (weight values "free_markets") (7 # 10)%Q),
    free_market);
   (andb (mentions economy_words situation_lower)
         (gt (weight values "equality") (8 # 10)%Q),
    equitable_distribution)].

(** Evaluated in order, first match wins. *)
Definition first_match (rules : list (bool * string)) : option string :=
  option_map snd (find fst rules).

(** "Sort the ideology's values descending by weight": [x] may stand
    before [y]. *)
Definition ranked (x y : string * Q) : Prop := (snd y <= snd x)%Q.

End IdeologySpec.

(** ** Sample graphs, spaces and ideologies *)

Module Examples.

Import Nx.

Definition graph_with_democracy : DiGraph :=
  fst (ConceptGraph.add_concept ConceptGraph.init "Democracy" "political_system"
         "Government by the people" "2024-01-01T00:00:00" []).

Definition two_concepts : DiGraph :=
  fst (ConceptGraph.add_concept graph_with_democracy "Freedom" "value" ""
         "2024-01-01T00:00:01" []).

Definition taught_once : DiGraph :=
  fst (ConceptGraph.add_concept ConceptGraph.init "Freedom" "value"
         "Power to act without constraint" "2024-01-01T00:00:00"
         [("importance", VNum (9 # 10)%Q)]).

Definition taught_twice : DiGraph :=
  fst (ConceptGraph.add_concept taught_once "Freedom" "right" "Absence of coercion"
         "2024-01-02T00:00:00" [("scope", VStr "political")]).

(** Democracy requires Freedom, Voting enables Democracy. *)
Definition star : DiGraph :=
  fst (ConceptGraph.connect_concepts
         (fst (ConceptGraph.connect_concepts
                 (fst (ConceptGraph.add_concept two_concepts "Voting" "mechanism" ""
                         "2024-01-01T00:00:02" []))
                 "Democracy" "Freedom" "requires"))
         "Voting" "Democracy" "enables").

Definition what_is_democracy : string := "What is democracy?".
Definition noon : string := "2024-01-03T12:00:00".

(** A space over a fresh graph, and one over a graph that knows Democracy,
    both with the default threshold. *)
Definition fresh_space : Metacognition.MetacognitionSpace :=
  Metacognition.init ConceptGraph.init Metacognition.default_threshold.

Definition democracy_space : Metacognition.MetacognitionSpace :=
  Metacognition.init graph_with_democracy Metacognition.default_threshold.

Definition star_space : Metacognition.MetacognitionSpace :=
  Metacognition.init star Metacognition.default_threshold.

Definition voting_and_freedom : string := "How does voting relate to freedom?".

Definition libertarian_values : dict Q :=
  [("freedom", (95 # 100)%Q); ("limited_government", (85 # 100)%Q)].

Definition libertarian_store : Ideology.store :=
  fst (Ideology.teach_ideology Ideology.init "Libertarianism" libertarian_values
         ["Minimize government intervention"] "Liberty first" None).

(** An ideology taught with no values at all. *)
Definition hollow_store : Ideology.store :=
  fst (Ideology.teach_ideology Ideology.init "Hollow" [] ["Nothing matters"] "" None).

(** Stand-ins for the two number renderings, used where a sample needs
    concrete text. *)
Definition no_bar (w : Q) : string := "".
Definition plain_weight (w : Q) : string :=
  str_of_nat (Z.to_nat (Qnum w)) ++ "/" ++ str_of_nat (Pos.to_nat (Qden w)).

End Examples.

(** ** What the path search maintains *)

Module SearchSpec.

Import Nx.

(** [p] is a walk of the graph: each node is joined to the next by an edge
    in that direction. *)
Fixpoint is_walk (G : DiGraph) (p : list string) : Prop :=
  match p with
  | u :: ((v :: _) as rest) => has_edge G u v = true /\ is_walk G rest
  | _ => True
  end.

(** Each node of [p] is a neighbour, in the sense of [nbrs], of the node
    after it. *)
Fixpoint linked (nbrs : string -> list string) (p : list string) : Prop :=
  match p with
  | a :: ((b :: _) as rest) => In a (nbrs b) /\ linked nbrs rest
  | _ => True
  end.

(** A search dictionary is a tree towards [root]: only the root has no
    parent, every other node was reached from its parent, itself in the
    dictionary, and parents come strictly earlier in some numbering that
    stays below the size of the dictionary. *)
Definition search_tree (nbrs : string -> list string) (root : string) (seen : parents)
  : Prop :=
  exists d : string -> nat,
    forall w p, dict_get seen w = Some p ->
      d w < List.length seen
      /\ match p with
         | None => w = root
         | Some v => dict_mem seen v = true /\ In w (nbrs v) /\ d v < d w
         end.

End SearchSpec.

(** ** Graphs and stores as the package can build them *)

Module Histories.

Import Nx.

(** The graphs a [ConceptGraph] goes through: the empty one, then any
    number of [add_concept] and [connect_concepts] calls. *)
Inductive built : DiGraph -> Prop :=
| built_init : built ConceptGraph.init
| built_add_concept (G : DiGraph) (name concept_type definition now : string)
    (attributes : dict value) :
    built G ->
    built (fst (ConceptGraph.add_concept G name concept_type definition now attributes))
| built_connect_concepts (G : DiGraph) (from_concept to_concept relationship : string) :
    built G ->
    built (fst (ConceptGraph.connect_concepts G from_concept to_concept relationship)).

(** The stores an [IdeologyFramework] goes through: the empty one, then any
    number of [teach_ideology] and [remove_ideology] calls. *)
Inductive taught : Ideology.store -> Prop :=
| taught_init : taught Ideology.init
| taught_teach (st : Ideology.store) (name : string) (core_values : dict Q)
    (principles : list string) (description : string) (examples : option (list string)) :
    taught st ->
    taught (fst (Ideology.teach_ideology st name core_values principles description examples))
| taught_remove (st : Ideology.store) (name : string) :
    taught st ->
    taught (fst (Ideology.remove_ideology st name)).

(** A session: questions, each with the time it is asked, put to a space
    one after the other; the space at the end and the answers. *)
Fixpoint ask_all (m : Metacognition.MetacognitionSpace) (asked : list (string * string))
  : Metacognition.MetacognitionSpace * list string :=
  match asked with
  | [] => (m, [])
  | (q, now) :: rest =>
      let '(m1, answer) := Metacognition.process_question m q now in
      let '(m2, answers) := ask_all m1 rest in
      (m2, answer :: answers)
  end.

End Histories.

(** * Properties *)

(** ** Dictionaries and strings *)

Section DictFacts.

Context {V : Type}.

Lemma dict_get_set_same (d : dict V) (k : string) (v : V) :
  dict_get (dict_set d k v) k = Some v.
Proof.
  induction d as [|[k' v'] d IH]; simpl.
  - now rewrite String.eqb_refl.
  - destruct (String.eqb k k') eqn:E; simpl; rewrite E; auto.
Qed.

Lemma dict_get_set_other (d : dict V) (k k' : string) (v : V) :
  k <> k' -> dict_get (dict_set d k v) k' = dict_get d k'.
Proof.
  intros Hne. induction d as [|[k0 v0] d IH]; simpl.
  - apply String.eqb_neq in Hne. now rewrite String.eqb_sym, Hne.
  - destruct (String.eqb k k0) eqn:E; simpl.
    + apply String.eqb_eq in E. subst k0.
      destruct (String.eqb k' k) eqn:E'; auto.
      apply String.eqb_eq in E'. congruence.
    + now rewrite IH.
Qed.

Lemma dict_get_none_keys (d : dict V) (k : string) :
  ~ In k (dict_keys d) -> dict_get d k = None.
Proof.
  induction d as [|[k' v'] d IH]; simpl; intros Hn; auto.
  destruct (String.eqb k k') eqn:E.
  - apply String.eqb_eq in E. subst. tauto.
  - apply IH. tauto.
Qed.

(** [d.update(new)] read back: the keys of [new] win, the others keep the
    value they had in [d]. *)
Lemma dict_get_update (new d : dict V) (k : string) :
  NoDup (dict_keys new) ->
  dict_get (dict_update d new) k =
    match dict_get new k with
    | Some v => Some v
    | None => dict_get d k
    end.
Proof.
  unfold dict_update. revert d.
  induction new as [|[k1 v1] new IH]; intros d Hnd; simpl; auto.
  inversion Hnd as [|? ? Hnotin Hnd']; subst.
  rewrite IH by assumption.
  destruct (String.eqb k k1) eqn:E.
  - apply String.eqb_eq in E. subst k1.
    rewrite (dict_get_none_keys new k Hnotin).
    apply dict_get_set_same.
  - destruct (dict_get new k); auto.
    apply dict_get_set_other. apply String.eqb_neq in E. congruence.
Qed.

Lemma dict_mem_set_same (d : dict V) (k : string) (v : V) :
  dict_mem (dict_set d k v) k = true.
Proof. unfold dict_mem. now rewrite dict_get_set_same. Qed.

Lemma dict_get_in (d : dict V) (k : string) (v : V) :
  dict_get d k = Some v -> In (k, v) d.
Proof.
  induction d as [|[k' v'] d IH]; simpl; intros H; try discriminate.
  destruct (String.eqb k k') eqn:E.
  - apply String.eqb_eq in E. inversion H. subst. now left.
  - right. auto.
Qed.

Lemma dict_mem_keys (d : dict V) (k : string) :
  dict_mem d k = false -> ~ In k (dict_keys d).
Proof.
  unfold dict_mem. induction d as [|[k' v'] d IH]; simpl; intros H; auto.
  destruct (String.eqb k k') eqn:E; try discriminate.
  apply String.eqb_neq in E. intros [Heq|Hin]; [congruence | now apply IH].
Qed.

End DictFacts.

Lemma append_assoc (a b c : string) : (a ++ b) ++ c = a ++ (b ++ c).
Proof. induction a as [|x a IH]; simpl; [reflexivity | now rewrite IH]. Qed.

Lemma append_empty_r (a : string) : a ++ "" = a.
Proof. induction a as [|x a IH]; simpl; [reflexivity | now rewrite IH]. Qed.

(** ** The concept graph *)

Section GraphFacts.

Import Nx ConceptGraph.

Lemma has_node_add_node (G : DiGraph) (n : string) (attr : dict value) :
  has_node (add_node G n attr) n = true.
Proof. apply dict_mem_set_same. Qed.

Lemma add_edge_known_nodes (G : DiGraph) (u v r : string) :
  has_node G u = true -> has_node G v = true ->
  node (add_edge G u v r) = node G.
Proof.
  unfold has_node, add_edge, ensure_node. simpl. intros Hu Hv.
  rewrite Hu, Hv. reflexivity.
Qed.

Lemma relationship_in_set_edge (es : list (string * string * string)) (u v r : string) :
  relationship_in (set_edge es u v r) u v = Some r.
Proof.
  induction es as [|[[u' v'] r'] es IH]; simpl.
  - now rewrite !String.eqb_refl.
  - destruct (andb (String.eqb u u') (String.eqb v v')) eqn:E; simpl; rewrite E; auto.
Qed.

Lemma successors_set_edge (es : list (string * string * string)) (u v r : string) :
  In v (map (fun e => snd (fst e))
          (filter (fun e => String.eqb (fst (fst e)) u) (set_edge es u v r))).
Proof.
  induction es as [|[[u' v'] r'] es IH]; simpl.
  - rewrite String.eqb_refl. now left.
  - destruct (andb (String.eqb u u') (String.eqb v v')) eqn:E; simpl.
    + apply andb_true_iff in E as [Eu Ev].
      apply String.eqb_eq in Eu, Ev. subst u' v'.
      rewrite String.eqb_refl. now left.
    + destruct (String.eqb u' u); simpl; auto.
Qed.

(** The first round of the search from [A] meets [B] as soon as [B] is
    among the successors of [A], and records [A] as its parent. *)
Lemma scan_neighbours_meets (A B : string) (ws : list string) :
  A <> B -> In B ws ->
  forall (seen : parents) (fringe : list string),
    dict_get seen A = Some None -> dict_mem seen B = false ->
    exists seen',
      scan_neighbours ws A seen [(B, None)] fringe = Found seen' B
      /\ dict_get seen' B = Some (Some A)
      /\ dict_get seen' A = Some None.
Proof.
  intros Hne. induction ws as [|w ws IH]; intros Hin seen fringe HA HB; [contradiction|].
  assert (Hother : dict_mem [(B, @None string)] w = String.eqb w B).
  { unfold dict_mem. simpl. now destruct (String.eqb w B). }
  cbn [scan_neighbours]. rewrite Hother.
  destruct (String.eqb w B) eqn:E.
  - apply String.eqb_eq in E. subst w.
    rewrite HB. eexists. split; [reflexivity|]. split.
    + apply dict_get_set_same.
    + rewrite dict_get_set_other by congruence. exact HA.
  - apply String.eqb_neq in E.
    destruct Hin as [Heq|Hin]; [congruence|].
    apply IH; auto.
    + destruct (dict_mem seen w) eqn:Ew; auto.
      destruct (String.eqb w A) eqn:EA.
      * apply String.eqb_eq in EA. subst w.
        unfold dict_mem in Ew. rewrite HA in Ew. discriminate.
      * apply String.eqb_neq in EA. now rewrite dict_get_set_other.
    + destruct (dict_mem seen w) eqn:Ew; auto.
      unfold dict_mem. rewrite dict_get_set_other by assumption. exact HB.
Qed.

Lemma shortest_path_direct_edge (G : DiGraph) (A B : string) :
  has_node G A = true -> has_node G B = true -> A <> B ->
  In B (successors G A) ->
  shortest_path G A B = Path [A; B].
Proof.
  intros HA HB Hne Hin. unfold shortest_path. rewrite HA, HB. simpl.
  unfold _bidirectional_pred_succ.
  assert (E : String.eqb B A = false) by (apply String.eqb_neq; congruence).
  rewrite E. unfold search_fuel. simpl.
  destruct (scan_neighbours_meets A B (successors G A) Hne Hin [(A, None)] [])
    as (seen' & Hscan & HgB & HgA).
  - simpl. now rewrite String.eqb_refl.
  - unfold dict_mem. simpl. now rewrite E.
  - rewrite Hscan.
    destruct seen' as [|p seen']; [discriminate|].
    cbn [List.length walk]. rewrite HgB.
    destruct seen' as [|p' seen'].
    + simpl in HgB, HgA. destruct p as [k v].
      destruct (String.eqb B k) eqn:E1; [|discriminate].
      destruct (String.eqb A k) eqn:E2; [|discriminate].
      apply String.eqb_eq in E1, E2. congruence.
    + cbn [List.length walk]. rewrite HgA.
      simpl. rewrite String.eqb_refl. reflexivity.
Qed.

(** *** The search always finishes *)

Lemma dict_keys_set_absent {V : Type} (d : dict V) (k : string) (v : V) :
  dict_mem d k = false -> dict_keys (dict_set d k v) = (dict_keys d ++ [k])%list.
Proof.
  unfold dict_mem. induction d as [|[k' v'] d IH]; simpl; intros H; auto.
  destruct (String.eqb k k') eqn:E; [discriminate|]. simpl. now rewrite IH.
Qed.

Lemma dict_mem_in_keys {V : Type} (d : dict V) (k : string) :
  dict_mem d k = true -> In k (dict_keys d).
Proof.
  unfold dict_mem. induction d as [|[k' v'] d IH]; simpl; intros H; [discriminate|].
  destruct (String.eqb k k') eqn:E.
  - apply String.eqb_eq in E. now left.
  - right. auto.
Qed.

(** A pass over neighbours that does not meet the other side appends the
    nodes it marks, each of them a neighbour and new, to [seen] and to the
    fringe alike. *)
Lemma scan_neighbours_continue (ws : list string) (v : string) (other : parents) :
  forall seen fringe seen' fringe',
    scan_neighbours ws v seen other fringe = Continue seen' fringe' ->
    NoDup (dict_keys seen) ->
    exists new,
      dict_keys seen' = (dict_keys seen ++ new)%list
      /\ fringe' = (fringe ++ new)%list
      /\ incl new ws
      /\ NoDup (dict_keys seen').
Proof.
  induction ws as [|w ws IH]; intros seen fringe seen' fringe' H Hnd.
  - inversion H; subst. exists []. rewrite !app_nil_r. repeat split; auto. intros x [].
  - cbn [scan_neighbours] in H.
    destruct (dict_mem other w); [discriminate|].
    destruct (dict_mem seen w) eqn:Ew.
    + destruct (IH _ _ _ _ H Hnd) as (new & Hk & Hf & Hi & Hn).
      exists new. repeat split; auto. now apply incl_tl.
    + assert (Hk1 := dict_keys_set_absent seen w (Some v) Ew).
      assert (Hnd1 : NoDup (dict_keys (dict_set seen w (Some v)))).
      { rewrite Hk1. apply NoDup_app; auto.
        - repeat constructor. intros [].
        - intros x Hx [Hw|[]]. subst x. exact (dict_mem_keys _ _ Ew Hx). }
      destruct (IH _ _ _ _ H Hnd1) as (new & Hk & Hf & Hi & Hn).
      exists (w :: new). repeat split; auto.
      * rewrite Hk, Hk1. now rewrite <- app_assoc.
      * rewrite Hf. now rewrite <- app_assoc.
      * intros x [Hx|Hx]; [now left | right; now apply Hi].
Qed.

Lemma scan_level_continue (nbrs : string -> list string) (level : list string)
    (other : parents) :
  forall seen fringe seen' fringe',
    scan_level nbrs level seen other fringe = Continue seen' fringe' ->
    NoDup (dict_keys seen) ->
    exists new,
      dict_keys seen' = (dict_keys seen ++ new)%list
      /\ fringe' = (fringe ++ new)%list
      /\ incl new (flat_map nbrs level)
      /\ NoDup (dict_keys seen').
Proof.
  induction level as [|v vs IH]; intros seen fringe seen' fringe' H Hnd.
  - inversion H; subst. exists []. rewrite !app_nil_r. repeat split; auto. intros x [].
  - cbn [scan_level] in H.
    destruct (scan_neighbours (nbrs v) v seen other fringe) as [|seen1 fringe1] eqn:E1;
      [discriminate|].
    destruct (scan_neighbours_continue _ _ _ _ _ _ _ E1 Hnd) as (n1 & Hk1 & Hf1 & Hi1 & Hn1).
    destruct (IH _ _ _ _ H Hn1) as (n2 & Hk2 & Hf2 & Hi2 & Hn2).
    exists (n1 ++ n2)%list. repeat split; auto.
    + rewrite Hk2, Hk1. now rewrite <- app_assoc.
    + rewrite Hf2, Hf1. now rewrite <- app_assoc.
    + cbn [flat_map]. intros x Hx. apply in_app_iff.
      apply in_app_iff in Hx as [Hx|Hx]; [left; now apply Hi1 | right; now apply Hi2].
Qed.

Lemma successors_are_nodes (G : DiGraph) (u x : string) :
  edges_closed G -> In x (successors G u) -> In x (nodes G).
Proof.
  intros Hc Hx. unfold successors in Hx.
  apply in_map_iff in Hx as ([[a b] r] & Hb & Hin). simpl in Hb. subst b.
  apply filter_In in Hin as [Hin _].
  apply dict_mem_in_keys. exact (proj2 (Hc _ _ _ Hin)).
Qed.

Lemma predecessors_are_nodes (G : DiGraph) (v x : string) :
  edges_closed G -> In x (predecessors G v) -> In x (nodes G).
Proof.
  intros Hc Hx. unfold predecessors in Hx.
  apply in_map_iff in Hx as ([[a b] r] & Ha & Hin). simpl in Ha. subst a.
  apply filter_In in Hin as [Hin _].
  apply dict_mem_in_keys. exact (proj1 (Hc _ _ _ Hin)).
Qed.

Lemma keys_bound {V : Type} (G : DiGraph) (seen : dict V) :
  NoDup (dict_keys seen) -> incl (dict_keys seen) (nodes G) ->
  List.length seen <= number_of_nodes G.
Proof.
  intros Hnd Hincl. pose proof (NoDup_incl_length Hnd Hincl) as H.
  unfold nodes, dict_keys, number_of_nodes in *. now rewrite !length_map in H.
Qed.

Lemma grown_length {V : Type} (seen seen' : dict V) (new : list string) :
  dict_keys seen' = (dict_keys seen ++ new)%list ->
  List.length seen' = List.length seen + List.length new.
Proof.
  intros H. apply (f_equal (@List.length string)) in H.
  unfold dict_keys in H. now rewrite length_app, !length_map in H.
Qed.

Lemma search_loop_finishes (G : DiGraph) :
  edges_closed G ->
  forall fuel pred succ forward_fringe reverse_fringe,
    NoDup (dict_keys pred) -> NoDup (dict_keys succ) ->
    incl (dict_keys pred) (nodes G) -> incl (dict_keys succ) (nodes G) ->
    2 * number_of_nodes G + 2 <= fuel + List.length pred + List.length succ ->
    search_loop fuel G pred succ forward_fringe reverse_fringe <> OutOfFuel.
Proof.
  intros Hc. induction fuel as [|fuel IH];
    intros pred succ ff rf Np Ns Ip Is Hfuel.
  - pose proof (keys_bound G pred Np Ip). pose proof (keys_bound G succ Ns Is). lia.
  - pose proof (keys_bound G pred Np Ip) as Bp.
    pose proof (keys_bound G succ Ns Is) as Bs.
    cbn [search_loop].
    destruct ff as [|f ff]; [discriminate|].
    destruct rf as [|r rf]; [discriminate|].
    destruct (Nat.leb (List.length (f :: ff)) (List.length (r :: rf))).
    + destruct (scan_level (successors G) (f :: ff) pred succ []) as [|pred' fringe'] eqn:E;
        [discriminate|].
      destruct (scan_level_continue _ _ _ _ _ _ _ E Np) as (new & Hk & Hf & Hi & Hn).
      simpl in Hf. subst fringe'.
      pose proof (grown_length _ _ _ Hk) as Hlen.
      destruct new as [|x new].
      * destruct fuel as [|fuel']; [lia | discriminate].
      * apply IH; auto.
        -- rewrite Hk. apply incl_app; auto.
           intros y Hy. apply Hi in Hy. apply in_flat_map in Hy as (u & _ & Hy).
           now apply (successors_are_nodes G u).
        -- simpl in Hlen. lia.
    + destruct (scan_level (predecessors G) (r :: rf) succ pred []) as [|succ' fringe'] eqn:E;
        [discriminate|].
      destruct (scan_level_continue _ _ _ _ _ _ _ E Ns) as (new & Hk & Hf & Hi & Hn).
      simpl in Hf. subst fringe'.
      pose proof (grown_length _ _ _ Hk) as Hlen.
      destruct new as [|x new].
      * destruct fuel as [|fuel']; [lia | discriminate].
      * apply IH; auto.
        -- rewrite Hk. apply incl_app; auto.
           intros y Hy. apply Hi in Hy. apply in_flat_map in Hy as (u & _ & Hy).
           now apply (predecessors_are_nodes G u).
        -- simpl in Hlen. lia.
Qed.

(** On a graph whose edges join its nodes the search ends within its
    fuel: [shortest_path] returns a path or one of networkx's two errors. *)
Lemma shortest_path_finishes (G : DiGraph) (source target : string) :
  edges_closed G -> shortest_path G source target <> Unfinished.
Proof.
  intros Hc. unfold shortest_path.
  destruct (has_node G source) eqn:Hs; [|discriminate].
  destruct (has_node G target) eqn:Ht; [|discriminate].
  cbn [negb orb]. unfold _bidirectional_pred_succ.
  destruct (String.eqb target source); [discriminate|].
  destruct (search_loop (search_fuel G) G [(source, None)] [(target, None)]
              [source] [target]) eqn:E; try discriminate.
  exfalso. revert E. apply search_loop_finishes; auto.
  - repeat constructor. intros [].
  - repeat constructor. intros [].
  - intros x [<-|[]]. now apply dict_mem_in_keys.
  - intros x [<-|[]]. now apply dict_mem_in_keys.
  - unfold search_fuel. simpl. lia.
Qed.

End GraphFacts.

Section ConceptFacts.

Import Nx ConceptGraph Examples.

Lemma add_concept_ok (G G1 : DiGraph) (name ct d now out : string) (a : dict value) :
  add_concept G name ct d now a = (G1, Ok out) ->
  G1 = add_node G name (node_kwargs ct d now a)
  /\ forall k, In k (dict_keys a) -> ~ In k bound_keywords.
Proof.
  unfold add_concept.
  destruct (find (fun k => mem_str k bound_keywords) (dict_keys a)) eqn:F; intros H;
    inversion H; subst. split; [reflexivity|].
  intros k Hin Hb.
  pose proof (find_none _ _ F k Hin) as Hf. cbv beta in Hf.
  unfold mem_str in Hf.
  assert (Ht : existsb (String.eqb k) bound_keywords = true).
  { apply existsb_exists. exists k. split; [exact Hb | apply String.eqb_refl]. }
  rewrite Ht in Hf. discriminate Hf.
Qed.

Lemma node_kwargs_get_free (ct d now k : string) (a : dict value) :
  ~ In k bound_keywords ->
  dict_get (node_kwargs ct d now a) k = dict_get a k.
Proof.
  intros Hn. unfold node_kwargs. simpl in *.
  destruct (String.eqb k "type") eqn:E1; [apply String.eqb_eq in E1; subst; tauto|].
  destruct (String.eqb k "definition") eqn:E2; [apply String.eqb_eq in E2; subst; tauto|].
  destruct (String.eqb k "learned_at") eqn:E3; [apply String.eqb_eq in E3; subst; tauto|].
  reflexivity.
Qed.

Lemma node_kwargs_nodup (ct d now : string) (a : dict value) :
  NoDup (dict_keys a) ->
  (forall k, In k (dict_keys a) -> ~ In k bound_keywords) ->
  NoDup (dict_keys (node_kwargs ct d now a)).
Proof.
  intros Hnd Hfree. unfold node_kwargs. simpl.
  repeat constructor; simpl; auto;
    intros H; repeat (destruct H as [H|H]; try discriminate);
    apply (Hfree _ H); simpl; tauto.
Qed.

Lemma attrs_after_add_node (G : DiGraph) (name : string) (attr : dict value) (k : string) :
  NoDup (dict_keys attr) ->
  dict_get (dict_get_default (node (add_node G name attr)) name []) k
  = match dict_get attr k with
    | Some v => Some v
    | None => dict_get (dict_get_default (node G) name []) k
    end.
Proof.
  intros Hnd. unfold add_node, dict_get_default at 1. cbn [node].
  rewrite dict_get_set_same. now apply dict_get_update.
Qed.

Lemma get_concept_add_node (G : DiGraph) (name : string) (attr : dict value) :
  get_concept (add_node G name attr) name
  = Some (dict_update (dict_get_default (node G) name []) attr).
Proof.
  unfold get_concept. rewrite has_node_add_node. simpl.
  unfold dict_get_default at 1. now rewrite dict_get_set_same.
Qed.

(** Graphs built with [add_concept] and [connect_concepts] keep their edges
    between their nodes. *)
Lemma edges_closed_init : edges_closed init.
Proof. intros u v r []. Qed.

Lemma has_node_add_node_mono (G : DiGraph) (n k : string) (attr : dict value) :
  has_node G k = true -> has_node (add_node G n attr) k = true.
Proof.
  unfold has_node, add_node, dict_mem. cbn [node]. intros H.
  destruct (String.eqb n k) eqn:E.
  - apply String.eqb_eq in E. subst. now rewrite dict_get_set_same.
  - apply String.eqb_neq in E. now rewrite dict_get_set_other.
Qed.

Lemma edges_closed_add_concept (G : DiGraph) (name ct d now : string) (a : dict value) :
  edges_closed G -> edges_closed (fst (add_concept G name ct d now a)).
Proof.
  intros Hc. unfold add_concept.
  destruct (find (fun k => mem_str k bound_keywords) (dict_keys a)); [exact Hc|].
  intros u v r Hin. cbn [fst add_node adj] in Hin.
  destruct (Hc _ _ _ Hin). split; now apply has_node_add_node_mono.
Qed.

Lemma in_set_edge (es : list (string * string * string)) (a b rel u v r : string) :
  In (u, v, r) (set_edge es a b rel) ->
  (exists r', In (u, v, r') es) \/ (u = a /\ v = b).
Proof.
  induction es as [|[[u' v'] r'] es IH]; simpl.
  - intros [H|[]]. inversion H. now right.
  - destruct (andb (String.eqb a u') (String.eqb b v')) eqn:E; simpl.
    + intros [H|H].
      * inversion H; subst. left. exists r'. now left.
      * left. exists r. now right.
    + intros [H|H].
      * inversion H; subst. left. exists r. now left.
      * destruct (IH H) as [[r0 H0]|H0]; [left; exists r0; now right | now right].
Qed.

Lemma edges_closed_connect_concepts (G : DiGraph) (a b rel : string) :
  edges_closed G -> edges_closed (fst (connect_concepts G a b rel)).
Proof.
  intros Hc. unfold connect_concepts.
  destruct (has_node G a) eqn:Ha; [|exact Hc].
  destruct (has_node G b) eqn:Hb; [|exact Hc].
  cbn [negb orb fst]. intros u v r Hin.
  unfold has_node. rewrite add_edge_known_nodes by assumption.
  cbn [add_edge adj] in Hin.
  destruct (in_set_edge _ _ _ _ _ _ _ Hin) as [[r' H]|[-> ->]]; [exact (Hc _ _ _ H) | auto].
Qed.

(** C5.  Connecting with an endpoint that is not a stored concept returns
    the graph as it was (nodes, attributes and edges, hence the edge count
    too), adds no edge between the two names, raises nothing, and reports
    the not-found warning. *)
Theorem connect_unknown_endpoint_is_noop (G : DiGraph) (source target rel : string) :
  has_node G source = false \/ has_node G target = false ->
  connect_concepts G source target rel = (G, not_found_warning)
  /\ number_of_edges (fst (connect_concepts G source target rel)) = number_of_edges G
  /\ has_edge (fst (connect_concepts G source target rel)) source target
     = has_edge G source target.
Proof.
  intros H.
  assert (E : connect_concepts G source target rel = (G, not_found_warning)).
  { unfold connect_concepts. destruct H as [H|H]; rewrite H; simpl; auto.
    now rewrite orb_true_r. }
  rewrite E. auto.
Qed.

Lemma connect_unknown_endpoint_is_noop_witness :
  has_node graph_with_democracy "Freedom" = false
  /\ connect_concepts graph_with_democracy "Democracy" "Freedom" "requires"
     = (graph_with_democracy, not_found_warning).
Proof.
  split; [reflexivity|].
  apply (connect_unknown_endpoint_is_noop graph_with_democracy "Democracy" "Freedom" "requires").
  right. reflexivity.
Defined.

(** C2, as the code has it.  After two successful [add_concept] calls on
    one name the concept shows the second call's type, definition and
    timestamp and every extra attribute of the second call, and it still
    shows every extra attribute given only in the first call: the node's
    attributes are updated, not replaced. *)
Theorem add_concept_twice_updates (G G1 G2 : DiGraph)
    (name ct1 d1 now1 out1 ct2 d2 now2 out2 : string) (a1 a2 : dict value) :
  NoDup (dict_keys a1) -> NoDup (dict_keys a2) ->
  add_concept G name ct1 d1 now1 a1 = (G1, Ok out1) ->
  add_concept G1 name ct2 d2 now2 a2 = (G2, Ok out2) ->
  exists attrs,
    get_concept G2 name = Some attrs
    /\ dict_get attrs "type" = Some (VStr ct2)
    /\ dict_get attrs "definition" = Some (VStr d2)
    /\ dict_get attrs "learned_at" = Some (VStr now2)
    /\ (forall k v, dict_get a2 k = Some v -> dict_get attrs k = Some v)
    /\ (forall k v, dict_get a1 k = Some v -> dict_get a2 k = None ->
                    dict_get attrs k = Some v).
Proof.
  intros N1 N2 H1 H2.
  apply add_concept_ok in H1 as [-> F1].
  apply add_concept_ok in H2 as [-> F2].
  pose proof (node_kwargs_nodup ct2 d2 now2 a2 N2 F2) as K2.
  pose proof (node_kwargs_nodup ct1 d1 now1 a1 N1 F1) as K1.
  assert (Hkeys : forall (a : dict value) k v, dict_get a k = Some v -> In k (dict_keys a)).
  { intros a k v Hg. apply dict_get_in in Hg.
    change k with (fst (k, v)). now apply in_map. }
  set (G1 := add_node G name (node_kwargs ct1 d1 now1 a1)).
  exists (dict_get_default (node (add_node G1 name (node_kwargs ct2 d2 now2 a2))) name []).
  split.
  { unfold get_concept. now rewrite has_node_add_node. }
  repeat split.
  - now rewrite attrs_after_add_node.
  - now rewrite attrs_after_add_node.
  - now rewrite attrs_after_add_node.
  - intros k v Hg. rewrite attrs_after_add_node by assumption.
    rewrite node_kwargs_get_free by eauto. now rewrite Hg.
  - intros k v Hg1 Hg2. rewrite attrs_after_add_node by assumption.
    rewrite node_kwargs_get_free by eauto. rewrite Hg2.
    unfold G1. rewrite attrs_after_add_node by assumption.
    rewrite node_kwargs_get_free by eauto. now rewrite Hg1.
Qed.

Lemma add_concept_twice_updates_witness :
  exists attrs,
    get_concept taught_twice "Freedom" = Some attrs
    /\ dict_get attrs "type" = Some (VStr "right")
    /\ dict_get attrs "scope" = Some (VStr "political")
    /\ dict_get attrs "importance" = Some (VNum (9 # 10)%Q).
Proof.
  destruct (add_concept_twice_updates init taught_once taught_twice
              "Freedom" "value" "Power to act without constraint" "2024-01-01T00:00:00"
              "✓ Learned concept: Freedom (value)"
              "right" "Absence of coercion" "2024-01-02T00:00:00"
              "✓ Learned concept: Freedom (right)"
              [("importance", VNum (9 # 10)%Q)] [("scope", VStr "political")])
    as (attrs & Hget & Ht & _ & _ & H2 & H1).
  - repeat constructor; simpl; tauto.
  - repeat constructor; simpl; tauto.
  - reflexivity.
  - reflexivity.
  - exists attrs. repeat split; auto.
Defined.

(** C2, as the specification states it, fails: the attribute [importance]
    given only in the first call is still visible after the second. *)
Lemma add_concept_overwrite_counterexample :
  get_concept taught_twice "Freedom"
  = Some [("type", VStr "right");
          ("definition", VStr "Absence of coercion");
          ("learned_at", VStr "2024-01-02T00:00:00");
          ("importance", VNum (9 # 10)%Q);
          ("scope", VStr "political")]
  /\ ~ (forall attrs, get_concept taught_twice "Freedom" = Some attrs ->
                      dict_get attrs "importance" = None).
Proof.
  split; [reflexivity|].
  intros H. specialize (H _ eq_refl). discriminate H.
Qed.

(** C7.  Connecting two distinct stored concepts and then asking for the
    shortest path between them gives the one-step path from the first to
    the second, and the rendered path shows that one step with the label
    just given. *)
Theorem connect_then_find_path (G : DiGraph) (A B rel : string) :
  has_node G A = true -> has_node G B = true -> A <> B ->
  shortest_path (fst (connect_concepts G A B rel)) A B = Path [A; B]
  /\ relationship (fst (connect_concepts G A B rel)) A B = Some rel
  /\ find_path (fst (connect_concepts G A B rel)) A B
     = nl ++ "🔗 Reasoning path from '" ++ A ++ "' to '" ++ B ++ "':" ++ nl
       ++ "  " ++ A ++ " --[" ++ rel ++ "]--> " ++ B ++ nl.
Proof.
  intros HA HB Hne.
  unfold connect_concepts. rewrite HA, HB. simpl fst.
  assert (Hrel : relationship (add_edge G A B rel) A B = Some rel)
    by apply relationship_in_set_edge.
  assert (Hsp : shortest_path (add_edge G A B rel) A B = Path [A; B]).
  { apply shortest_path_direct_edge; auto.
    - unfold has_node. now rewrite add_edge_known_nodes.
    - unfold has_node. now rewrite add_edge_known_nodes.
    - apply successors_set_edge. }
  repeat split; auto.
  unfold find_path. rewrite Hsp. cbn [render_steps]. unfold label. rewrite Hrel.
  now rewrite append_empty_r.
Qed.

Lemma connect_then_find_path_witness :
  has_node two_concepts "Democracy" = true
  /\ has_node two_concepts "Freedom" = true
  /\ shortest_path (fst (connect_concepts two_concepts "Democracy" "Freedom" "requires"))
       "Democracy" "Freedom" = Path ["Democracy"; "Freedom"].
Proof.
  split; [reflexivity|]. split; [reflexivity|].
  apply (connect_then_find_path two_concepts "Democracy" "Freedom" "requires");
    [reflexivity | reflexivity | discriminate].
Defined.

End ConceptFacts.

(** ** The reasoning controller *)

Section ControllerFacts.

Import Nx Metacognition Examples.

Lemma relevant_concepts_no_nodes (G : DiGraph) (words : list string) :
  nodes G = [] -> relevant_concepts G words = [].
Proof. unfold relevant_concepts. now intros ->. Qed.

Lemma gt_false_iff (a b : Q) : gt a b = false <-> (a <= b)%Q.
Proof.
  unfold gt. rewrite negb_false_iff. apply Qle_bool_iff.
Qed.

Lemma gt_true_iff (a b : Q) : gt a b = true <-> (b < a)%Q.
Proof.
  unfold gt. rewrite negb_true_iff. split.
  - intros H. apply Qnot_le_lt. intros Hle. apply Qle_bool_iff in Hle. congruence.
  - intros H. destruct (Qle_bool a b) eqn:E; auto.
    apply Qle_bool_iff in E. exfalso. exact (Qlt_not_le _ _ H E).
Qed.

Lemma slow_thinking_log (m : MetacognitionSpace) (q now : string) :
  fst (_slow_thinking m q now) = logged m q now.
Proof.
  unfold _slow_thinking.
  destruct (relevant_concepts (kb m) (_extract_keywords q)); reflexivity.
Qed.

Lemma slow_thinking_no_match (m : MetacognitionSpace) (q now : string) :
  relevant_concepts (kb m) (_extract_keywords q) = [] ->
  _slow_thinking m q now = (logged m q now, _generate_learning_request q).
Proof. unfold _slow_thinking. now intros ->. Qed.

(** C1, as the code has it.  When no concept matches the keywords of the
    question the fast path answers "I don't know yet." with confidence 0.0.
    [process_question] returns that message only under a negative
    threshold; under any threshold from 0 upwards, the default 0.7
    included, 0.0 does not exceed the threshold, so it goes on to the slow
    path and returns the request to be taught. *)
Theorem unmatched_question_answer (m : MetacognitionSpace) (q now : string) :
  relevant_concepts (kb m) (_extract_keywords q) = [] ->
  _fast_thinking m q = (dont_know, (0 # 1)%Q)
  /\ ((0 <= confidence_threshold m)%Q ->
      process_question m q now = (logged m q now, _generate_learning_request q))
  /\ ((confidence_threshold m < 0)%Q ->
      process_question m q now = (m, dont_know)).
Proof.
  intros Hrel.
  assert (Hfast : _fast_thinking m q = (dont_know, (0 # 1)%Q)).
  { unfold _fast_thinking. now rewrite Hrel. }
  split; [exact Hfast|]. unfold process_question. rewrite Hfast. split; intros Ht.
  - apply gt_false_iff in Ht. rewrite Ht. now apply slow_thinking_no_match.
  - apply gt_true_iff in Ht. now rewrite Ht.
Qed.

(** C3, as the code has it.  The slow path appends its log entry before it
    looks for relevant concepts: every run of the slow path leaves exactly
    one more entry (question, timestamp, "deep_thinking"), also when no
    concept is relevant and the answer is the request to be taught. *)
Theorem slow_path_always_logs (m : MetacognitionSpace) (q now : string) :
  thinking_log (fst (_slow_thinking m q now))
  = (thinking_log m ++ [deep_entry q now])%list
  /\ (relevant_concepts (kb m) (_extract_keywords q) = [] ->
      _slow_thinking m q now = (logged m q now, _generate_learning_request q))
  /\ (gt (snd (_fast_thinking m q)) (confidence_threshold m) = false ->
      process_question m q now = _slow_thinking m q now).
Proof.
  split; [now rewrite slow_thinking_log|].
  split; [apply slow_thinking_no_match|].
  unfold process_question. destruct (_fast_thinking m q) as [quick confidence].
  simpl. now intros ->.
Qed.

(** C4.  When exactly one concept matches the keywords of the question the
    fast path answers with that concept's explanation at confidence 0.8;
    under the default threshold 0.7, which 0.8 exceeds, [process_question]
    returns that explanation and leaves the space, its thinking log
    included, as it was. *)
Theorem single_match_fast_answer (m : MetacognitionSpace) (q now c : string) :
  relevant_concepts (kb m) (_extract_keywords q) = [c] ->
  _fast_thinking m q = (ConceptGraph.explain_concept (kb m) c, (8 # 10)%Q)
  /\ gt (8 # 10)%Q default_threshold = true
  /\ (confidence_threshold m = default_threshold ->
      process_question m q now = (m, ConceptGraph.explain_concept (kb m) c)
      /\ thinking_log (fst (process_question m q now)) = thinking_log m).
Proof.
  intros Hrel.
  assert (Hfast : _fast_thinking m q = (ConceptGraph.explain_concept (kb m) c, (8 # 10)%Q)).
  { unfold _fast_thinking. now rewrite Hrel. }
  split; [exact Hfast|]. split; [reflexivity|].
  intros Ht. unfold process_question. rewrite Hfast, Ht. simpl. auto.
Qed.

Lemma unmatched_question_answer_witness :
  relevant_concepts (kb fresh_space) (_extract_keywords what_is_democracy) = []
  /\ process_question fresh_space what_is_democracy noon
     = (logged fresh_space what_is_democracy noon,
        _generate_learning_request what_is_democracy).
Proof.
  split; [reflexivity|].
  apply (unmatched_question_answer fresh_space what_is_democracy noon); [reflexivity|].
  unfold Qle. simpl. lia.
Defined.

(** C1, as the specification states it, fails: on a fresh graph, under the
    default threshold, [process_question] does not return
    "I don't know yet." but the request to be taught. *)
Lemma unmatched_question_counterexample :
  relevant_concepts (kb fresh_space) (_extract_keywords what_is_democracy) = []
  /\ snd (process_question fresh_space what_is_democracy noon)
     = _generate_learning_request what_is_democracy
  /\ snd (process_question fresh_space what_is_democracy noon) <> dont_know.
Proof.
  split; [reflexivity|]. split; [reflexivity|].
  vm_compute. discriminate.
Qed.

Lemma slow_path_always_logs_witness :
  relevant_concepts (kb fresh_space) (_extract_keywords what_is_democracy) = []
  /\ _slow_thinking fresh_space what_is_democracy noon
     = (logged fresh_space what_is_democracy noon,
        _generate_learning_request what_is_democracy).
Proof.
  split; [reflexivity|].
  apply (slow_path_always_logs fresh_space what_is_democracy noon). reflexivity.
Defined.

(** C3, as the specification states it, fails: the slow path entered with
    no relevant concept returns the request to be taught and has appended
    a log entry all the same. *)
Lemma slow_path_empty_logs_counterexample :
  relevant_concepts (kb fresh_space) (_extract_keywords what_is_democracy) = []
  /\ thinking_log fresh_space = []
  /\ snd (process_question fresh_space what_is_democracy noon)
     = _generate_learning_request what_is_democracy
  /\ thinking_log (fst (process_question fresh_space what_is_democracy noon))
     = [deep_entry what_is_democracy noon].
Proof. repeat split. Qed.

Lemma single_match_fast_answer_witness :
  relevant_concepts (kb democracy_space) (_extract_keywords what_is_democracy)
  = ["Democracy"]
  /\ process_question democracy_space what_is_democracy noon
     = (democracy_space, ConceptGraph.explain_concept (kb democracy_space) "Democracy").
Proof.
  split; [reflexivity|].
  apply (single_match_fast_answer democracy_space what_is_democracy noon "Democracy");
    reflexivity.
Defined.

End ControllerFacts.

(** ** The ideology store and the perspective analyzer *)

Section StoreFacts.

Import Ideology Examples.

Lemma in_unit_interval_iff (w : Q) :
  in_unit_interval w = true <-> (0 <= w /\ w <= 1)%Q.
Proof.
  unfold in_unit_interval. rewrite andb_true_iff, !Qle_bool_iff. reflexivity.
Qed.

(** C6.  Teaching an ideology one of whose weights lies outside [0, 1]
    raises the validation error and leaves the store as it was; an ideology
    that was absent stays absent from [list_ideologies]. *)
Theorem teach_rejects_weight_out_of_range (st : store) (name : string)
    (core_values : dict Q) (principles : list string) (description : string)
    (examples : option (list string)) :
  (exists k w, In (k, w) core_values /\ ~ (0 <= w /\ w <= 1)%Q) ->
  teach_ideology st name core_values principles description examples
  = (st, Raise validation_error)
  /\ list_ideologies (fst (teach_ideology st name core_values principles description examples))
     = list_ideologies st
  /\ (dict_mem st name = false ->
      ~ In name (list_ideologies
                   (fst (teach_ideology st name core_values principles description examples)))).
Proof.
  intros (k & w & Hin & Hout).
  assert (E : teach_ideology st name core_values principles description examples
              = (st, Raise validation_error)).
  { unfold teach_ideology.
    destruct (forallb in_unit_interval (map snd core_values)) eqn:F; [|reflexivity].
    exfalso. apply Hout. apply in_unit_interval_iff.
    rewrite forallb_forall in F. apply F.
    change w with (snd (k, w)). now apply in_map. }
  rewrite E. simpl. repeat split; auto.
  intros Hm. now apply dict_mem_keys.
Qed.

Lemma teach_rejects_weight_out_of_range_witness :
  list_ideologies
    (fst (teach_ideology libertarian_store "Extremism" [("purity", (3 # 2)%Q)]
            ["No compromise"] "" None))
  = ["Libertarianism"].
Proof.
  destruct (teach_rejects_weight_out_of_range libertarian_store "Extremism"
              [("purity", (3 # 2)%Q)] ["No compromise"] "" None) as (_ & H & _).
  - exists "purity", (3 # 2)%Q. split; [now left|].
    intros [_ H]. unfold Qle in H. simpl in H. lia.
  - rewrite H. reflexivity.
Defined.

Lemma teach_accepts_in_range (st : store) (name : string)
    (core_values : dict Q) (principles : list string) (description : string)
    (examples : option (list string)) :
  forallb in_unit_interval (map snd core_values) = true ->
  exists i,
    teach_ideology st name core_values principles description examples
    = (dict_set st name i, Ok ("✓ Learned ideology: " ++ name))
    /\ values i = core_values /\ Ideology.principles i = principles.
Proof.
  intros F. unfold teach_ideology. rewrite F. simpl. eexists. repeat split.
Qed.

End StoreFacts.

Section PerspectiveFacts.

Import Ideology IdeologySpec Examples.

Variable bar : Q -> string.
Variable fixed2 : Q -> string.

Lemma weight_gt_iff (values : dict Q) (k : string) (c : Q) :
  gt (weight values k) c = true <-> (c < weight values k)%Q.
Proof.
  unfold gt. rewrite negb_true_iff. split.
  - intros H. apply Qnot_le_lt. intros Hle. apply Qle_bool_iff in Hle. congruence.
  - intros H. destruct (Qle_bool (weight values k) c) eqn:E; auto.
    apply Qle_bool_iff in E. exfalso. exact (Qlt_not_le _ _ H E).
Qed.

Lemma recommendation_is_cascade (situation : string) (values : dict Q)
    (principles : list string) :
  _generate_recommendation situation values principles
  = match first_match (cascade (lower situation) values) with
    | Some r => Ok r
    | None =>
        bind (max_item values) (fun top =>
          Ok ("  → Prioritize " ++ fst top ++ " in decision-making process."))
    end.
Proof.
  unfold _generate_recommendation, government_rule, economy_rule, first_match, cascade.
  cbn [find fst snd option_map].
  destruct (mentions government_words (lower situation));
    destruct (mentions economy_words (lower situation));
    destruct (gt (weight values "limited_government") (7 # 10));
    destruct (gt (weight values "freedom") (8 # 10));
    destruct (gt (weight values "collective_welfare") (7 # 10));
    destruct (gt (weight values "equality") (8 # 10));
    destruct (gt (weight values "free_markets") (7 # 10));
    reflexivity.
Qed.

Lemma oppose_when_small_government (situation : string) (values : dict Q)
    (principles : list string) :
  mentions government_words (lower situation) = true ->
  ((7 # 10) < weight values "limited_government"
   \/ (8 # 10) < weight values "freedom")%Q ->
  _generate_recommendation situation values principles = Ok oppose_intervention.
Proof.
  intros Hgov Hw.
  assert (Hb : orb (gt (weight values "limited_government") (7 # 10))
                   (gt (weight values "freedom") (8 # 10)) = true).
  { apply orb_true_iff. destruct Hw as [H|H]; [left|right]; now apply weight_gt_iff. }
  unfold _generate_recommendation, government_rule. now rewrite Hgov, Hb.
Qed.

(** C8.  The recommendation is the one the first matching rule of the
    cascade selects, and the highest-weighted value when no rule matches.
    In particular, for a stored ideology and a situation that mentions a
    government word, a [limited_government] weight above 0.7 or a [freedom]
    weight above 0.8 makes the analysis end in the oppose-intervention
    recommendation. *)
Theorem recommendation_first_match_wins :
  (forall situation values principles,
     _generate_recommendation situation values principles
     = match first_match (cascade (lower situation) values) with
       | Some r => Ok r
       | None =>
           bind (max_item values) (fun top =>
             Ok ("  → Prioritize " ++ fst top ++ " in decision-making process."))
       end)
  /\ (forall (st : store) situation name i,
        dict_get st name = Some i ->
        mentions government_words (lower situation) = true ->
        ((7 # 10) < weight (values i) "limited_government"
         \/ (8 # 10) < weight (values i) "freedom")%Q ->
        _generate_recommendation situation (values i) (principles i)
        = Ok oppose_intervention
        /\ analyze_from_perspective bar fixed2 st situation name
           = Ok (report bar fixed2 situation name i oppose_intervention)).
Proof.
  split; [exact recommendation_is_cascade|].
  intros st situation name i Hget Hgov Hw.
  pose proof (oppose_when_small_government situation (values i) (principles i) Hgov Hw) as Hr.
  split; [exact Hr|].
  unfold analyze_from_perspective. now rewrite Hget, Hr.
Qed.

Lemma analyze_returns (st : store) (situation name : string) (i : ideology) :
  dict_get st name = Some i -> values i <> [] ->
  exists r, analyze_from_perspective bar fixed2 st situation name = Ok (report bar fixed2 situation name i r).
Proof.
  intros Hget Hne. unfold analyze_from_perspective. rewrite Hget.
  unfold _generate_recommendation.
  destruct (government_rule (lower situation) (values i)) as [r|]; [now exists r|].
  destruct (economy_rule (lower situation) (values i)) as [r|]; [now exists r|].
  assert (Hmax : exists top, max_item (values i) = Ok top).
  { destruct (values i) as [|x xs]; [congruence|]. simpl. eauto. }
  destruct Hmax as [top ->]. cbn [bind]. eexists. reflexivity.
Qed.

(** The loop of [compare_perspectives] analyzes the registered names, in
    order, and nothing else. *)
Lemma compare_loop_spec (st : store) (situation : string) (names : list string) :
  forall comparison,
    compare_loop bar fixed2 st situation names comparison
    = bind (mapM (analyze_from_perspective bar fixed2 st situation) (filter (dict_mem st) names))
        (fun reports =>
           Ok (comparison
               ++ concat_str (map (fun r => r ++ nl ++ dashes ++ nl) reports))).
Proof.
  induction names as [|n names IH]; intros comparison; simpl.
  - now rewrite append_empty_r.
  - destruct (dict_mem st n); [|apply IH]. simpl.
    destruct (analyze_from_perspective bar fixed2 st situation n) as [a|e]; simpl; [|reflexivity].
    rewrite IH.
    destruct (mapM (analyze_from_perspective bar fixed2 st situation) (filter (dict_mem st) names)) as [rs|e];
      simpl; [|reflexivity].
    now rewrite append_assoc.
Qed.

Lemma distinct_in (x : string) (xs : list string) : In x (distinct xs) <-> In x xs.
Proof.
  induction xs as [|y xs IH]; simpl; [tauto|].
  rewrite filter_In, IH, negb_true_iff, String.eqb_neq. split.
  - intros [H|[H _]]; auto.
  - intros [H|H]; [now left|].
    destruct (string_dec y x) as [E|E]; [now left | right; auto].
Qed.

Lemma distinct_nodup (xs : list string) : NoDup (distinct xs).
Proof.
  induction xs as [|y xs IH]; simpl; constructor.
  - rewrite filter_In, negb_true_iff, String.eqb_neq. intros [_ H]. now apply H.
  - now apply NoDup_filter.
Qed.

Lemma mapM_returns {A B : Type} (f : A -> result B) (xs : list A) :
  (forall x, In x xs -> exists y, f x = Ok y) ->
  exists ys, mapM f xs = Ok ys /\ Forall2 (fun x y => f x = Ok y) xs ys.
Proof.
  induction xs as [|x xs IH]; intros H.
  - exists []. split; [reflexivity | constructor].
  - destruct (H x (or_introl eq_refl)) as [y Hy].
    destruct (IH (fun x' Hx' => H x' (or_intror Hx'))) as (ys & Hys & Hall).
    exists (y :: ys). simpl. rewrite Hy, Hys. split; [reflexivity | now constructor].
Qed.

(** C9, as the code has it by design.  Provided every requested ideology
    that is in the store has at least one value, [compare_perspectives]
    returns the header, then the reports of exactly the requested names
    that are in the store, in the order requested, the others being
    skipped, then the synthesis.  The synthesis is the fixed line "No valid
    ideologies to synthesize." when no requested name is in the store;
    otherwise it gives the number of distinct value names of the requested
    stored ideologies and the number of requested stored names.  Asked for
    one stored ideology and one unknown name, the only report is the stored
    ideology's and the count of frameworks is 1. *)
Theorem compare_covers_registered_names (st : store) (situation : string)
    (names : list string) :
  (forall name i, In name names -> dict_get st name = Some i -> values i <> []) ->
  exists (reports all_values : list string),
    Forall2 (fun name r => analyze_from_perspective bar fixed2 st situation name = Ok r)
            (filter (dict_mem st) names) reports
    /\ NoDup all_values
    /\ (forall x, In x all_values <->
                  exists name i, In name names /\ dict_get st name = Some i
                                 /\ In x (dict_keys (values i)))
    /\ compare_perspectives bar fixed2 st situation names
       = Ok (compare_header situation
             ++ concat_str (map (fun r => r ++ nl ++ dashes ++ nl) reports)
             ++ nl ++ "🎯 Synthesis:" ++ nl
             ++ match filter (dict_mem st) names with
                | [] => "No valid ideologies to synthesize."
                | _ =>
                    "Different perspectives reveal:" ++ nl
                    ++ "  • " ++ str_of_nat (List.length all_values)
                    ++ " distinct values at play" ++ nl
                    ++ "  • " ++ str_of_nat (List.length (filter (dict_mem st) names))
                    ++ " competing frameworks" ++ nl
                    ++ "  • Decision requires balancing trade-offs" ++ nl ++ nl
                    ++ "Consider: What values matter most in this specific context?"
                end)
    /\ (forall valid unknown i,
          names = [valid; unknown] ->
          dict_get st valid = Some i -> dict_mem st unknown = false ->
          List.length (filter (dict_mem st) names) = 1
          /\ (exists r, reports = [report bar fixed2 situation valid i r])
          /\ (forall x, In x all_values <-> In x (dict_keys (values i)))).
Proof.
  intros Hvalues.
  assert (Hstored : forall name, In name (filter (dict_mem st) names) ->
            exists i, In name names /\ dict_get st name = Some i /\ values i <> []).
  { intros name Hin. apply filter_In in Hin as [Hin Hm].
    unfold dict_mem in Hm. destruct (dict_get st name) as [i|] eqn:E; [|discriminate].
    exists i. eauto. }
  destruct (mapM_returns (analyze_from_perspective bar fixed2 st situation)
              (filter (dict_mem st) names)) as (reports & Hmap & Hall).
  { intros name Hin. destruct (Hstored name Hin) as (i & _ & Hget & Hne).
    destruct (analyze_returns st situation name i Hget Hne) as [r Hr]. eauto. }
  assert (Hmem : forall x,
            In x (distinct (flat_map (value_names st) (filter (dict_mem st) names)))
            <-> exists name i, In name names /\ dict_get st name = Some i
                               /\ In x (dict_keys (values i))).
  { intros x. rewrite distinct_in, in_flat_map. split.
    - intros (name & Hin & Hx). destruct (Hstored name Hin) as (i & Hn & Hget & _).
      unfold value_names in Hx. rewrite Hget in Hx. eauto.
    - intros (name & i & Hn & Hget & Hx). exists name. split.
      + apply filter_In. split; [assumption|]. unfold dict_mem. now rewrite Hget.
      + unfold value_names. now rewrite Hget. }
  exists reports, (distinct (flat_map (value_names st) (filter (dict_mem st) names))).
  split; [exact Hall|]. split; [apply distinct_nodup|]. split; [exact Hmem|]. split.
  - unfold compare_perspectives. rewrite compare_loop_spec, Hmap. cbn [bind].
    rewrite append_assoc. unfold _synthesize_perspectives.
    destruct (filter (dict_mem st) names); reflexivity.
  - intros valid unknown i Hnames Hget Hunk. subst names.
    assert (Hvalid : dict_mem st valid = true) by (unfold dict_mem; now rewrite Hget).
    assert (Hf : filter (dict_mem st) [valid; unknown] = [valid]).
    { cbn [filter]. now rewrite Hvalid, Hunk. }
    split; [now rewrite Hf|]. split.
    + rewrite Hf in Hall.
      inversion Hall as [|v0 r0 l0 rs Hr0 Hrest E1 E2]. inversion Hrest.
      assert (Hne : values i <> []).
      { apply (Hvalues valid i); [now left | assumption]. }
      destruct (analyze_returns st situation valid i Hget Hne) as [r Hr].
      exists r. congruence.
    + intros x. rewrite Hmem. split.
      * intros (name & i' & Hin & Hget' & Hx).
        destruct Hin as [<-|[<-|[]]]; [congruence|].
        unfold dict_mem in Hunk. rewrite Hget' in Hunk. discriminate.
      * intros Hx. exists valid, i. repeat split; auto. now left.
Qed.

(** C10.  An ideology with no values is accepted and stored by
    [teach_ideology].  Analyzing any situation from it then raises: no
    weight exceeds a rule's bound, so neither keyword rule returns, with or
    without its keywords in the situation, and the default branch takes the
    maximum of no items. *)
Theorem empty_values_analysis_raises (st : store) (name : string)
    (principles : list string) (description : string)
    (examples : option (list string)) (situation : string) :
  snd (teach_ideology st name [] principles description examples)
  = Ok ("✓ Learned ideology: " ++ name)
  /\ (exists i,
        get_ideology (fst (teach_ideology st name [] principles description examples)) name
        = Some i
        /\ values i = [])
  /\ government_rule (lower situation) [] = None
  /\ economy_rule (lower situation) [] = None
  /\ analyze_from_perspective bar fixed2
       (fst (teach_ideology st name [] principles description examples)) situation name
     = Raise (ValueError "max() arg is an empty sequence").
Proof.
  assert (Hg : government_rule (lower situation) [] = None).
  { unfold government_rule. now destruct (mentions government_words (lower situation)). }
  assert (He : economy_rule (lower situation) [] = None).
  { unfold economy_rule. now destruct (mentions economy_words (lower situation)). }
  destruct (teach_accepts_in_range st name [] principles description examples eq_refl)
    as (i & Hteach & Hv & Hp).
  rewrite Hteach. cbn [fst snd].
  assert (Hget : dict_get (dict_set st name i) name = Some i) by apply dict_get_set_same.
  split; [reflexivity|]. split; [exists i; split; assumption|].
  split; [exact Hg|]. split; [exact He|].
  unfold analyze_from_perspective. rewrite Hget.
  unfold _generate_recommendation. rewrite Hv, Hg, He. reflexivity.
Qed.

End PerspectiveFacts.

Section PerspectiveSamples.

Import Ideology IdeologySpec Examples.

Lemma recommendation_first_match_wins_witness :
  mentions government_words (lower "New regulation proposed") = true
  /\ _generate_recommendation "New regulation proposed" libertarian_values
       ["Minimize government intervention"]
     = Ok oppose_intervention.
Proof.
  split; [reflexivity|].
  destruct (proj2 (recommendation_first_match_wins no_bar plain_weight)
              libertarian_store "New regulation proposed" "Libertarianism"
              {| values := libertarian_values;
                 principles := ["Minimize government intervention"];
                 description := "Liberty first";
                 examples := [] |}) as [H _].
  - reflexivity.
  - reflexivity.
  - left. unfold Qlt. simpl. lia.
  - exact H.
Defined.

Lemma compare_covers_registered_names_witness :
  exists reports all_values : list string,
    Forall2 (fun name r =>
               analyze_from_perspective no_bar plain_weight libertarian_store
                 "New regulation proposed" name = Ok r)
            ["Libertarianism"] reports
    /\ NoDup all_values
    /\ (forall x, In x all_values <-> In x ["freedom"; "limited_government"]).
Proof.
  destruct (compare_covers_registered_names no_bar plain_weight libertarian_store
              "New regulation proposed" ["Libertarianism"; "Unknown"])
    as (reports & all_values & Hall & Hnd & _ & _ & Hpair).
  - intros name i [<-|[<-|[]]] Hget; inversion Hget; discriminate.
  - exists reports, all_values. split; [exact Hall|]. split; [exact Hnd|].
    apply (Hpair "Libertarianism" "Unknown"
             {| values := libertarian_values;
                principles := ["Minimize government intervention"];
                description := "Liberty first";
                examples := [] |}); reflexivity.
Defined.

(** C9, as the specification states it, fails in two ways.  With one
    stored name and one unknown name there is no output at all when the
    stored ideology has no values: the analysis raises.  And when no
    requested name is stored, the synthesis reports no count: it is the
    fixed line. *)
Lemma compare_reports_counts_counterexample :
  dict_mem hollow_store "Hollow" = true
  /\ dict_mem hollow_store "Unknown" = false
  /\ compare_perspectives no_bar plain_weight hollow_store "Anything at all"
       ["Hollow"; "Unknown"]
     = Raise (ValueError "max() arg is an empty sequence")
  /\ compare_perspectives no_bar plain_weight libertarian_store "New regulation proposed"
       ["Unknown"]
     = Ok (compare_header "New regulation proposed" ++ nl ++ "🎯 Synthesis:" ++ nl
           ++ "No valid ideologies to synthesize.")
  /\ _synthesize_perspectives libertarian_store "New regulation proposed" ["Unknown"]
     = "No valid ideologies to synthesize."
  /\ contains "competing frameworks"
       (_synthesize_perspectives libertarian_store "New regulation proposed" ["Unknown"])
     = false.
Proof. repeat split. Qed.

End PerspectiveSamples.

(** * Further properties of the code *)

(** ** More on dictionaries and strings *)

Section MoreDictFacts.

Context {V : Type}.

Lemma dict_keys_set_present (d : dict V) (k : string) (v : V) :
  dict_mem d k = true -> dict_keys (dict_set d k v) = dict_keys d.
Proof.
  unfold dict_mem. induction d as [|[k' v'] d IH]; simpl; intros H; [discriminate|].
  destruct (String.eqb k k') eqn:E; simpl; [reflexivity|]. now rewrite IH.
Qed.

Lemma dict_mem_iff_keys (d : dict V) (k : string) :
  dict_mem d k = true <-> In k (dict_keys d).
Proof.
  split; [apply dict_mem_in_keys|].
  intros Hin. destruct (dict_mem d k) eqn:E; auto.
  exfalso. exact (dict_mem_keys d k E Hin).
Qed.

Lemma dict_keys_set_nodup (d : dict V) (k : string) (v : V) :
  NoDup (dict_keys d) -> NoDup (dict_keys (dict_set d k v)).
Proof.
  intros Hnd. destruct (dict_mem d k) eqn:E.
  - now rewrite dict_keys_set_present.
  - rewrite dict_keys_set_absent by assumption.
    apply NoDup_app; auto.
    + repeat constructor. intros [].
    + intros x Hx [Hk|[]]. subst x. exact (dict_mem_keys d k E Hx).
Qed.

(** Keys that [new] does not mention keep their value through
    [d.update(new)]. *)
Lemma dict_get_update_other (new d : dict V) (k : string) :
  ~ In k (dict_keys new) -> dict_get (dict_update d new) k = dict_get d k.
Proof.
  unfold dict_update. revert d.
  induction new as [|[k1 v1] new IH]; intros d Hn; simpl; auto.
  simpl in Hn. rewrite IH by tauto.
  apply dict_get_set_other. intros ->. tauto.
Qed.

Lemma dict_update_app (d new1 new2 : dict V) :
  dict_update d (new1 ++ new2)%list = dict_update (dict_update d new1) new2.
Proof. unfold dict_update. apply fold_left_app. Qed.

End MoreDictFacts.

Lemma mem_str_iff (x : string) (xs : list string) : mem_str x xs = true <-> In x xs.
Proof.
  unfold mem_str. rewrite existsb_exists. split.
  - intros (y & Hin & E). apply String.eqb_eq in E. now subst.
  - intros Hin. exists x. split; [assumption | apply String.eqb_refl].
Qed.

Lemma starts_with_app (s t : string) : starts_with s (s ++ t) = true.
Proof.
  induction s as [|c s IH]; simpl; [reflexivity|].
  now rewrite Ascii.eqb_refl, IH.
Qed.

Lemma starts_with_app_l (s a t : string) :
  starts_with s a = true -> starts_with s (a ++ t) = true.
Proof.
  revert a. induction s as [|c s IH]; intros a H; [reflexivity|].
  destruct a as [|b a]; simpl in *; [discriminate|].
  apply andb_true_iff in H as [H1 H2]. now rewrite H1, IH.
Qed.

Lemma contains_starts_with (s t : string) : starts_with s t = true -> contains s t = true.
Proof. intros H. destruct t; simpl in *; now rewrite H. Qed.

Lemma contains_app_r (s a t : string) : contains s t = true -> contains s (a ++ t) = true.
Proof.
  intros H. induction a as [|c a IH]; simpl; [assumption|].
  rewrite IH. apply orb_true_r.
Qed.

Lemma contains_app_l (s a t : string) : contains s a = true -> contains s (a ++ t) = true.
Proof.
  induction a as [|c a IH]; simpl; intros H.
  - rewrite orb_false_r in H. destruct s; [|discriminate].
    destruct t; reflexivity.
  - apply orb_true_iff in H as [H|H].
    + pose proof (starts_with_app_l s (String c a) t H) as H'. simpl in H'. now rewrite H'.
    + rewrite (IH H). apply orb_true_r.
Qed.

(** [s in a + s + t] *)
Lemma contains_middle (s a t : string) : contains s (a ++ s ++ t) = true.
Proof. apply contains_app_r, contains_starts_with, starts_with_app. Qed.

Lemma contains_concat_str (s x : string) (xs : list string) :
  In x xs -> contains s x = true -> contains s (concat_str xs) = true.
Proof.
  induction xs as [|y xs IH]; intros Hin Hc; [destruct Hin|].
  destruct Hin as [Heq|Hin]; simpl.
  - subst y. now apply contains_app_l.
  - apply contains_app_r. now apply IH.
Qed.

(** ** More on the concept graph *)

Section MoreConceptFacts.

Import Nx ConceptGraph Histories Examples.

Lemma get_concept_add_node_other (G : DiGraph) (name other : string) (attr : dict value) :
  other <> name -> get_concept (add_node G name attr) other = get_concept G other.
Proof.
  intros Hne. unfold get_concept, has_node, dict_mem, dict_get_default, add_node.
  cbn [node]. now rewrite dict_get_set_other by congruence.
Qed.

Lemma nodes_add_node (G : DiGraph) (name : string) (attr : dict value) :
  nodes (add_node G name attr)
  = if has_node G name then nodes G else (nodes G ++ [name])%list.
Proof.
  unfold nodes, has_node, add_node. cbn [node].
  destruct (dict_mem (node G) name) eqn:E.
  - now apply dict_keys_set_present.
  - now apply dict_keys_set_absent.
Qed.

(** X1.  A successful [add_concept] can be read back: [get_concept] shows
    the type, definition and timestamp just given and every extra
    attribute.  It touches nothing else: every other concept and every
    edge is as before, and the name is appended to the node list when new
    and keeps its place when known. *)
Theorem add_concept_then_get_concept (G G1 : DiGraph) (name ct d now out : string)
    (a : dict value) :
  NoDup (dict_keys a) ->
  add_concept G name ct d now a = (G1, Ok out) ->
  (exists attrs,
     get_concept G1 name = Some attrs
     /\ dict_get attrs "type" = Some (VStr ct)
     /\ dict_get attrs "definition" = Some (VStr d)
     /\ dict_get attrs "learned_at" = Some (VStr now)
     /\ forall k v, dict_get a k = Some v -> dict_get attrs k = Some v)
  /\ (forall other, other <> name -> get_concept G1 other = get_concept G other)
  /\ adj G1 = adj G
  /\ nodes G1 = if has_node G name then nodes G else (nodes G ++ [name])%list.
Proof.
  intros Na H. apply add_concept_ok in H as [-> Hfree].
  pose proof (node_kwargs_nodup ct d now a Na Hfree) as K.
  split; [|split; [|split]].
  - exists (dict_get_default (node (add_node G name (node_kwargs ct d now a))) name []).
    split; [unfold get_concept; now rewrite has_node_add_node|].
    repeat split; try (now rewrite attrs_after_add_node).
    intros k v Hg. rewrite attrs_after_add_node by assumption.
    rewrite node_kwargs_get_free.
    + now rewrite Hg.
    + apply Hfree. apply dict_get_in in Hg. change k with (fst (k, v)). now apply in_map.
  - intros other Hne. now apply get_concept_add_node_other.
  - reflexivity.
  - apply nodes_add_node.
Qed.

Lemma add_concept_then_get_concept_witness :
  get_concept taught_once "Democracy" = get_concept init "Democracy"
  /\ nodes taught_once = ["Freedom"].
Proof.
  destruct (add_concept_then_get_concept init taught_once "Freedom" "value"
              "Power to act without constraint" "2024-01-01T00:00:00"
              "✓ Learned concept: Freedom (value)" [("importance", VNum (9 # 10)%Q)])
    as (_ & Hother & _ & Hnodes).
  - repeat constructor; simpl; tauto.
  - reflexivity.
  - split; [apply Hother; discriminate | exact Hnodes].
Defined.

(** X2.  [add_concept] raises a [TypeError], and leaves the graph alone,
    exactly when an extra attribute is named like one of its own parameters
    ([self], [name], [concept_type], [definition]) or like an argument its
    call to [add_node] already binds ([node_for_adding], [type],
    [learned_at]). *)
Theorem add_concept_rejects_bound_keyword (G : DiGraph) (name ct d now : string)
    (a : dict value) :
  (exists k, In k (dict_keys a) /\ In k bound_keywords)
  <-> (exists msg, add_concept G name ct d now a = (G, Raise (TypeError msg))).
Proof.
  unfold add_concept.
  destruct (find (fun k => mem_str k bound_keywords) (dict_keys a)) as [k0|] eqn:F; split.
  - intros _. eexists. reflexivity.
  - intros _. apply find_some in F as [Hin Hb]. exists k0.
    split; [assumption | now apply mem_str_iff].
  - intros (k & Hin & Hb). pose proof (find_none _ _ F k Hin) as Hf. cbv beta in Hf.
    apply mem_str_iff in Hb. congruence.
  - intros (msg & H). inversion H.
Qed.

Lemma add_concept_rejects_bound_keyword_witness :
  exists msg,
    add_concept graph_with_democracy "Freedom" "value" "" "2024-01-01T00:00:01"
      [("name", VStr "Liberty")]
    = (graph_with_democracy, Raise (TypeError msg)).
Proof.
  apply (add_concept_rejects_bound_keyword graph_with_democracy "Freedom" "value" ""
           "2024-01-01T00:00:01" [("name", VStr "Liberty")]).
  exists "name". split; simpl; tauto.
Defined.

Lemma length_set_edge (es : list (string * string * string)) (a b r : string) :
  List.length (set_edge es a b r)
  = match relationship_in es a b with
    | Some _ => List.length es
    | None => S (List.length es)
    end.
Proof.
  induction es as [|[[u v] r'] es IH]; simpl; auto.
  destruct (andb (String.eqb a u) (String.eqb b v)); simpl; auto.
  rewrite IH. now destruct (relationship_in es a b).
Qed.

Lemma relationship_in_set_edge_other (es : list (string * string * string))
    (a b r u v : string) :
  (u, v) <> (a, b) ->
  relationship_in (set_edge es a b r) u v = relationship_in es u v.
Proof.
  intros Hne.
  assert (Hab : andb (String.eqb u a) (String.eqb v b) = false).
  { apply andb_false_iff.
    destruct (String.eqb u a) eqn:E1; [|now left].
    destruct (String.eqb v b) eqn:E2; [|now right].
    apply String.eqb_eq in E1, E2. congruence. }
  induction es as [|[[u' v'] r'] es IH]; simpl.
  - now rewrite Hab.
  - destruct (andb (String.eqb a u') (String.eqb b v')) eqn:E; simpl.
    + apply andb_true_iff in E as [E1 E2].
      apply String.eqb_eq in E1, E2. subst u' v'. now rewrite Hab.
    + now rewrite IH.
Qed.

(** X3.  Connecting two stored concepts records the relationship, from the
    first to the second only as far as this pair goes, and changes no other
    pair and no concept.  The statistics count one more relationship when
    the pair was not connected before; reconnecting a pair replaces its
    label and the count stays. *)
Theorem connect_known_endpoints (G : DiGraph) (a b r : string) :
  has_node G a = true -> has_node G b = true ->
  snd (connect_concepts G a b r) = "✓ Connected: " ++ a ++ " --[" ++ r ++ "]--> " ++ b
  /\ relationship (fst (connect_concepts G a b r)) a b = Some r
  /\ (forall u v, (u, v) <> (a, b) ->
        relationship (fst (connect_concepts G a b r)) u v = relationship G u v)
  /\ node (fst (connect_concepts G a b r)) = node G
  /\ total_relationships (get_statistics (fst (connect_concepts G a b r)))
     = (if has_edge G a b then total_relationships (get_statistics G)
        else S (total_relationships (get_statistics G)))
  /\ total_concepts (get_statistics (fst (connect_concepts G a b r)))
     = total_concepts (get_statistics G)
  /\ concept_types (get_statistics (fst (connect_concepts G a b r)))
     = concept_types (get_statistics G).
Proof.
  intros Ha Hb. unfold connect_concepts. rewrite Ha, Hb. cbn [negb orb fst snd].
  pose proof (add_edge_known_nodes G a b r Ha Hb) as Hn.
  split; [reflexivity|].
  split; [apply relationship_in_set_edge|].
  split; [intros u v Hne; now apply relationship_in_set_edge_other|].
  split; [exact Hn|].
  unfold get_statistics, number_of_edges, number_of_nodes.
  cbn [total_relationships total_concepts concept_types]. rewrite Hn.
  split; [|split; reflexivity].
  cbn [add_edge adj]. rewrite length_set_edge.
  unfold has_edge, relationship. now destruct (relationship_in (adj G) a b).
Qed.

Lemma connect_known_endpoints_witness :
  relationship (fst (connect_concepts two_concepts "Democracy" "Freedom" "requires"))
    "Democracy" "Freedom" = Some "requires"
  /\ relationship (fst (connect_concepts two_concepts "Democracy" "Freedom" "requires"))
       "Freedom" "Democracy" = None.
Proof.
  destruct (connect_known_endpoints two_concepts "Democracy" "Freedom" "requires")
    as (_ & H1 & H2 & _); [reflexivity | reflexivity |].
  split; [exact H1|]. rewrite H2 by discriminate. reflexivity.
Defined.

End MoreConceptFacts.

Section BuiltGraphFacts.

Import Nx ConceptGraph Histories Examples.

Lemma add_concept_raise (G G1 : DiGraph) (name ct d now : string) (a : dict value) (e : exn) :
  add_concept G name ct d now a = (G1, Raise e) -> G1 = G.
Proof.
  unfold add_concept.
  destruct (find (fun k => mem_str k bound_keywords) (dict_keys a)); intros H;
    inversion H; reflexivity.
Qed.

Lemma map_fst_set_edge (es : list (string * string * string)) (a b r : string) :
  map fst (set_edge es a b r)
  = match relationship_in es a b with
    | Some _ => map fst es
    | None => (map fst es ++ [(a, b)])%list
    end.
Proof.
  induction es as [|[[u v] r'] es IH]; simpl; auto.
  destruct (andb (String.eqb a u) (String.eqb b v)) eqn:E; simpl; auto.
  rewrite IH. now destruct (relationship_in es a b).
Qed.

Lemma relationship_in_none (es : list (string * string * string)) (a b : string) :
  relationship_in es a b = None -> ~ In (a, b) (map fst es).
Proof.
  induction es as [|[[u v] r'] es IH]; simpl; intros H; [tauto|].
  destruct (andb (String.eqb a u) (String.eqb b v)) eqn:E; [discriminate|].
  intros [Heq|Hin]; [|now apply IH].
  inversion Heq; subst. now rewrite !String.eqb_refl in E.
Qed.

Lemma built_edges_closed (G : DiGraph) : built G -> edges_closed G.
Proof.
  induction 1.
  - apply edges_closed_init.
  - now apply edges_closed_add_concept.
  - now apply edges_closed_connect_concepts.
Qed.

Lemma built_nodes_nodup (G : DiGraph) : built G -> NoDup (nodes G).
Proof.
  induction 1 as [|G name ct d now a HG IH|G a b r HG IH].
  - constructor.
  - unfold add_concept.
    destruct (find (fun k => mem_str k bound_keywords) (dict_keys a)); [exact IH|].
    cbn [fst]. unfold nodes, add_node. cbn [node]. now apply dict_keys_set_nodup.
  - unfold connect_concepts.
    destruct (has_node G a) eqn:Ha; [|exact IH].
    destruct (has_node G b) eqn:Hb; [|exact IH].
    cbn [negb orb fst]. unfold nodes. now rewrite add_edge_known_nodes.
Qed.

Lemma built_pairs_nodup (G : DiGraph) : built G -> NoDup (map fst (adj G)).
Proof.
  induction 1 as [|G name ct d now a HG IH|G a b r HG IH].
  - constructor.
  - unfold add_concept.
    destruct (find (fun k => mem_str k bound_keywords) (dict_keys a)); exact IH.
  - unfold connect_concepts.
    destruct (orb (negb (has_node G a)) (negb (has_node G b))); [exact IH|].
    cbn [fst add_edge adj]. rewrite map_fst_set_edge.
    destruct (relationship_in (adj G) a b) eqn:E; [exact IH|].
    apply NoDup_app; auto.
    + repeat constructor. intros [].
    + intros x Hx [Heq|[]]. subst x. exact (relationship_in_none _ _ _ E Hx).
Qed.

Lemma kwargs_builtin (old : dict value) (ct d now : string) (a : dict value) :
  (forall k, In k (dict_keys a) -> ~ In k bound_keywords) ->
  dict_get (dict_update old (node_kwargs ct d now a)) "type" = Some (VStr ct)
  /\ dict_get (dict_update old (node_kwargs ct d now a)) "definition" = Some (VStr d)
  /\ dict_get (dict_update old (node_kwargs ct d now a)) "learned_at" = Some (VStr now).
Proof.
  intros Hfree. unfold node_kwargs. rewrite dict_update_app.
  assert (Hstd : NoDup (dict_keys [("type", VStr ct); ("definition", VStr d);
                                   ("learned_at", VStr now)])).
  { repeat constructor; simpl; intros H;
      repeat (destruct H as [H|H]; try discriminate); auto. }
  repeat split;
    (rewrite dict_get_update_other;
     [now rewrite dict_get_update by exact Hstd
     | intros Hin; apply (Hfree _ Hin); simpl; tauto]).
Qed.

Lemma built_attributes (G : DiGraph) :
  built G ->
  forall n attrs, get_concept G n = Some attrs ->
    exists t d l,
      dict_get attrs "type" = Some (VStr t)
      /\ dict_get attrs "definition" = Some (VStr d)
      /\ dict_get attrs "learned_at" = Some (VStr l).
Proof.
  induction 1 as [|G name ct d now a HG IH|G a b r HG IH]; intros n attrs Hget.
  - discriminate.
  - destruct (add_concept G name ct d now a) as [G1 [out|e]] eqn:E; cbn [fst] in Hget.
    + apply add_concept_ok in E as [-> Hfree].
      destruct (String.eqb n name) eqn:En.
      * apply String.eqb_eq in En. subst n.
        rewrite get_concept_add_node in Hget. inversion Hget; subst attrs.
        exists ct, d, now. now apply kwargs_builtin.
      * apply String.eqb_neq in En.
        rewrite get_concept_add_node_other in Hget by assumption. eauto.
    + apply add_concept_raise in E. subst G1. eauto.
  - unfold connect_concepts in Hget.
    destruct (has_node G a) eqn:Ha; [|eauto].
    destruct (has_node G b) eqn:Hb; [|eauto].
    cbn [negb orb fst] in Hget.
    apply (IH n attrs). revert Hget. unfold get_concept, has_node.
    now rewrite add_edge_known_nodes.
Qed.

(** X4.  Whatever sequence of [add_concept] and [connect_concepts] calls
    built it, a graph lists no concept twice, has at most one relationship
    per ordered pair, joins only stored concepts, and every concept carries
    a text type, definition and timestamp. *)
Theorem built_graph_invariants (G : DiGraph) :
  built G ->
  NoDup (nodes G)
  /\ NoDup (map fst (adj G))
  /\ edges_closed G
  /\ (forall n attrs, get_concept G n = Some attrs ->
        exists t d l,
          dict_get attrs "type" = Some (VStr t)
          /\ dict_get attrs "definition" = Some (VStr d)
          /\ dict_get attrs "learned_at" = Some (VStr l)).
Proof.
  intros H. split; [now apply built_nodes_nodup|].
  split; [now apply built_pairs_nodup|].
  split; [now apply built_edges_closed | now apply built_attributes].
Qed.

Lemma built_two_concepts : built two_concepts.
Proof. unfold two_concepts, graph_with_democracy. repeat constructor. Qed.

Lemma built_graph_invariants_witness :
  built two_concepts /\ NoDup (nodes two_concepts).
Proof.
  split; [exact built_two_concepts|].
  apply (built_graph_invariants two_concepts). exact built_two_concepts.
Defined.

Lemma shortest_path_self (G : DiGraph) (a : string) :
  has_node G a = true -> shortest_path G a a = Path [a].
Proof.
  intros Ha. unfold shortest_path, _bidirectional_pred_succ.
  rewrite Ha, String.eqb_refl. simpl.
  repeat (rewrite String.eqb_refl; simpl). reflexivity.
Qed.

(** X5.  On a built graph [find_path] always answers, with one of three
    texts: when an endpoint is no stored concept, "Concept not found: "
    followed by the library's message; otherwise either the rendering of
    the path the search returned or the no-connection message.  From a
    stored concept to itself the path is that concept alone, rendered with
    no step. *)
Theorem find_path_outcomes (G : DiGraph) (a b : string) :
  built G ->
  (has_node G a = false \/ has_node G b = false ->
   exists e, find_path G a b = "Concept not found: " ++ e)
  /\ (has_node G a = true -> has_node G b = true ->
      (exists p,
         shortest_path G a b = Path p
         /\ find_path G a b
            = nl ++ "🔗 Reasoning path from '" ++ a ++ "' to '" ++ b ++ "':" ++ nl
              ++ render_steps G p)
      \/ find_path G a b = "No connection found between '" ++ a ++ "' and '" ++ b ++ "'")
  /\ (has_node G a = true ->
      find_path G a a = nl ++ "🔗 Reasoning path from '" ++ a ++ "' to '" ++ a ++ "':" ++ nl).
Proof.
  intros HB. split; [|split].
  - intros H. unfold find_path, shortest_path.
    destruct (has_node G a); cbn [negb]; [|eexists; reflexivity].
    destruct H as [H|H]; [discriminate|]. rewrite H. cbn [negb]. eexists. reflexivity.
  - intros Ha Hb. pose proof (shortest_path_finishes G a b (built_edges_closed G HB)) as Hfin.
    unfold find_path.
    destruct (shortest_path G a b) as [p|msg|msg|] eqn:E.
    + left. exists p. split; reflexivity.
    + now right.
    + exfalso. unfold shortest_path in E. rewrite Ha, Hb in E. cbn [negb] in E.
      destruct (_bidirectional_pred_succ G a b); discriminate.
    + congruence.
  - intros Ha. unfold find_path. rewrite shortest_path_self by assumption.
    cbn [render_steps]. now rewrite !append_empty_r.
Qed.

Lemma find_path_outcomes_witness :
  find_path two_concepts "Democracy" "Freedom"
  = "No connection found between 'Democracy' and 'Freedom'"
  /\ exists e, find_path two_concepts "Democracy" "Voting" = "Concept not found: " ++ e.
Proof.
  destruct (find_path_outcomes two_concepts "Democracy" "Voting" built_two_concepts)
    as (H & _ & _).
  split; [reflexivity|]. apply H. right. reflexivity.
Defined.

End BuiltGraphFacts.

Section ExplanationFacts.

Import Nx ConceptGraph Examples.

Lemma predecessors_set_edge (es : list (string * string * string)) (u v r : string) :
  In u (map (fun e => fst (fst e))
          (filter (fun e => String.eqb (snd (fst e)) v) (set_edge es u v r))).
Proof.
  induction es as [|[[u' v'] r'] es IH]; simpl.
  - rewrite String.eqb_refl. now left.
  - destruct (andb (String.eqb u u') (String.eqb v v')) eqn:E; simpl.
    + apply andb_true_iff in E as [Eu Ev].
      apply String.eqb_eq in Eu, Ev. subst u' v'.
      rewrite String.eqb_refl. now left.
    + destruct (String.eqb v' v); simpl; auto.
Qed.

(** X6.  The explanation of a name the graph does not know says that it
    has not been learned; the explanation of a stored concept contains the
    concept's name and, when its definition is not empty, the definition. *)
Theorem explain_concept_mentions (G : DiGraph) (c : string) :
  (has_node G c = false ->
   contains "haven't learned" (explain_concept G c) = true)
  /\ (has_node G c = true ->
      contains c (explain_concept G c) = true
      /\ forall attrs d,
           get_concept G c = Some attrs ->
           dict_get attrs "definition" = Some (VStr d) -> d <> "" ->
           contains d (explain_concept G c) = true).
Proof.
  split; intros Hn; unfold explain_concept; rewrite Hn; cbn [negb]; cbv zeta.
  - apply contains_app_l. reflexivity.
  - split.
    + do 4 apply contains_app_r. apply contains_starts_with, starts_with_app.
    + intros attrs d Hget Hd Hne.
      unfold get_concept in Hget. rewrite Hn in Hget. cbn [negb] in Hget.
      inversion Hget as [Ha]. rewrite Ha, Hd.
      destruct d as [|x d]; [congruence|].
      do 9 apply contains_app_r. apply contains_app_l.
      apply contains_app_r. apply contains_starts_with, starts_with_app.
Qed.

Lemma explain_concept_mentions_witness :
  contains "Democracy" (explain_concept graph_with_democracy "Democracy") = true
  /\ contains "Government by the people"
       (explain_concept graph_with_democracy "Democracy") = true
  /\ contains "haven't learned" (explain_concept graph_with_democracy "NonExistent") = true.
Proof.
  destruct (explain_concept_mentions graph_with_democracy "Democracy") as [_ H].
  destruct (H eq_refl) as [H1 H2].
  split; [exact H1|]. split.
  - eapply H2; [reflexivity | reflexivity | discriminate].
  - apply (proj1 (explain_concept_mentions graph_with_democracy "NonExistent")). reflexivity.
Defined.

(** X7.  After two stored concepts are connected, the explanation of the
    source lists the relationship and the target under "This concept:",
    and the explanation of the target lists the source and the
    relationship under "Related from:". *)
Theorem explain_concept_shows_connection (G : DiGraph) (a b r : string) :
  has_node G a = true -> has_node G b = true ->
  contains "This concept:" (explain_concept (fst (connect_concepts G a b r)) a) = true
  /\ contains ("  • " ++ r ++ " → " ++ b ++ nl)
       (explain_concept (fst (connect_concepts G a b r)) a) = true
  /\ contains "Related from:" (explain_concept (fst (connect_concepts G a b r)) b) = true
  /\ contains ("  • " ++ a ++ " --[" ++ r ++ "]→ this" ++ nl)
       (explain_concept (fst (connect_concepts G a b r)) b) = true.
Proof.
  intros Ha Hb. unfold connect_concepts. rewrite Ha, Hb. cbn [negb orb fst].
  set (G' := add_edge G a b r).
  assert (Ha' : has_node G' a = true)
    by (unfold has_node, G'; now rewrite add_edge_known_nodes).
  assert (Hb' : has_node G' b = true)
    by (unfold has_node, G'; now rewrite add_edge_known_nodes).
  assert (Hl : label G' a b = r).
  { unfold label, relationship, G'. cbn [add_edge adj]. now rewrite relationship_in_set_edge. }
  assert (Hout : In (b, r) (map (fun target => (target, label G' a target)) (successors G' a))).
  { rewrite <- Hl at 1. apply in_map with (f := fun target => (target, label G' a target)).
    apply successors_set_edge. }
  assert (Hinc : In (a, r) (map (fun source => (source, label G' source b)) (predecessors G' b))).
  { rewrite <- Hl at 1. apply in_map with (f := fun source => (source, label G' source b)).
    apply predecessors_set_edge. }
  assert (Hself : forall x, contains x x = true).
  { intros x. apply contains_starts_with. rewrite <- (append_empty_r x) at 2.
    apply starts_with_app. }
  split; [|split; [|split]]; unfold explain_concept; cbv zeta.
  - rewrite Ha'. cbn [negb].
    destruct (map (fun target => (target, label G' a target)) (successors G' a)) as [|o os];
      [destruct Hout|].
    do 10 apply contains_app_r. apply contains_app_l.
    apply contains_starts_with, starts_with_app.
  - rewrite Ha'. cbn [negb].
    destruct (map (fun target => (target, label G' a target)) (successors G' a)) as [|o os] eqn:E;
      [destruct Hout|].
    do 10 apply contains_app_r. apply contains_app_l.
    do 2 apply contains_app_r. apply contains_app_l.
    apply contains_concat_str with (x := "  • " ++ r ++ " → " ++ b ++ nl); [|apply Hself].
    change ("  • " ++ r ++ " → " ++ b ++ nl)
      with ((fun tr : string * string => "  • " ++ snd tr ++ " → " ++ fst tr ++ nl) (b, r)).
    now apply in_map.
  - rewrite Hb'. cbn [negb].
    destruct (map (fun source => (source, label G' source b)) (predecessors G' b)) as [|o os];
      [destruct Hinc|].
    do 11 apply contains_app_r. apply contains_starts_with, starts_with_app.
  - rewrite Hb'. cbn [negb].
    destruct (map (fun source => (source, label G' source b)) (predecessors G' b)) as [|o os] eqn:E;
      [destruct Hinc|].
    do 13 apply contains_app_r.
    apply contains_concat_str with (x := "  • " ++ a ++ " --[" ++ r ++ "]→ this" ++ nl);
      [|apply Hself].
    change ("  • " ++ a ++ " --[" ++ r ++ "]→ this" ++ nl)
      with ((fun sr : string * string =>
               "  • " ++ fst sr ++ " --[" ++ snd sr ++ "]→ this" ++ nl) (a, r)).
    now apply in_map.
Qed.

Lemma explain_concept_shows_connection_witness :
  contains ("  • requires → Freedom" ++ nl)
    (explain_concept (fst (connect_concepts two_concepts "Democracy" "Freedom" "requires"))
       "Democracy") = true.
Proof.
  apply (explain_concept_shows_connection two_concepts "Democracy" "Freedom" "requires");
    reflexivity.
Defined.

End ExplanationFacts.

Section RelatedFacts.

Import Nx ConceptGraph Examples.

(** One pass over neighbours adds to the next level exactly the
    neighbours not seen before. *)
Lemma visit_next (ws : list string) :
  forall seen nextlevel x,
    In x (snd (visit ws seen nextlevel))
    <-> In x nextlevel \/ (In x ws /\ ~ In x seen).
Proof.
  induction ws as [|w ws IH]; intros seen nextlevel x; cbn [visit snd].
  - simpl. tauto.
  - destruct (mem_str w seen) eqn:E.
    + apply mem_str_iff in E. rewrite IH. simpl. split.
      * intros [H|[H1 H2]]; auto.
      * intros [H|[[H1|H1] H2]]; auto. subst. tauto.
    + assert (Hw : ~ In w seen).
      { intros H. apply mem_str_iff in H. congruence. }
      rewrite IH. rewrite !in_app_iff. simpl. split.
      * intros [[H|[H|[]]]|[H1 H2]]; auto.
        -- subst. auto.
        -- right. split; auto.
      * intros [H|[[H1|H1] H2]]; auto.
        destruct (string_dec x w) as [->|Hne]; auto.
        right. split; auto. intros [H|[H|[]]]; auto.
Qed.

Lemma related_at_depth_one (G : DiGraph) (c : string) :
  map fst (single_source_shortest_path_length G c 1)
  = c :: snd (visit (undirected_neighbours G c) [c] []).
Proof.
  unfold single_source_shortest_path_length.
  change (Z.to_nat 1) with 1%nat. cbn [levels visit_level].
  destruct (visit (undirected_neighbours G c) [c] []) as [seen' next].
  cbn [snd map fst]. rewrite app_nil_r, map_map. cbn [fst]. now rewrite map_id.
Qed.

(** X8.  [get_related_concepts] returns nothing for a name the graph does
    not know and nothing at depth 0 or below; the concept itself is never
    among its own related concepts.  At depth 1 the related concepts of a
    stored concept are exactly the other concepts joined to it by a
    relationship in either direction. *)
Theorem related_concepts_by_depth (G : DiGraph) (c : string) :
  (forall depth, has_node G c = false -> get_related_concepts G c depth = [])
  /\ (forall depth, (depth <= 0)%Z -> get_related_concepts G c depth = [])
  /\ (forall depth, ~ In c (get_related_concepts G c depth))
  /\ (has_node G c = true ->
      forall x, In x (get_related_concepts G c 1)
                <-> x <> c /\ (In x (successors G c) \/ In x (predecessors G c))).
Proof.
  split; [|split; [|split]].
  - intros depth H. unfold get_related_concepts. now rewrite H.
  - intros depth Hd. unfold get_related_concepts.
    destruct (has_node G c); [|reflexivity]. cbn [negb].
    unfold single_source_shortest_path_length.
    replace (Z.to_nat depth) with 0 by lia.
    cbn [levels filter fst]. now rewrite String.eqb_refl.
  - intros depth Hin. unfold get_related_concepts in Hin.
    destruct (has_node G c); [|destruct Hin]. cbn [negb] in Hin.
    apply in_map_iff in Hin as ([n dst] & Hn & Hf). cbn [fst] in Hn. subst n.
    apply filter_In in Hf as [_ Hf]. cbn [fst] in Hf. now rewrite String.eqb_refl in Hf.
  - intros Hn x. unfold get_related_concepts. rewrite Hn. cbn [negb].
    assert (Hfm : forall l : list (string * nat),
              In x (map fst (filter (fun nd => negb (String.eqb (fst nd) c)) l))
              <-> x <> c /\ In x (map fst l)).
    { intros l. rewrite !in_map_iff. split.
      - intros ([n dst] & Hx & Hf). cbn [fst] in Hx. subst n.
        apply filter_In in Hf as [Hin Hf]. cbn [fst] in Hf.
        apply negb_true_iff, String.eqb_neq in Hf. split; [assumption|].
        exists (x, dst). auto.
      - intros (Hne & [n dst] & Hx & Hin). cbn [fst] in Hx. subst n.
        exists (x, dst). split; [reflexivity|]. apply filter_In. split; [assumption|].
        cbn [fst]. now apply negb_true_iff, String.eqb_neq. }
    rewrite Hfm, related_at_depth_one. cbn [In]. rewrite visit_next.
    unfold undirected_neighbours. rewrite in_app_iff. simpl. split.
    + intros (Hne & [H|[[]|[H _]]]); [congruence | auto].
    + intros (Hne & H). split; [assumption|]. right. right. split; [assumption|].
      intros [H'|[]]. congruence.
Qed.

Lemma related_concepts_by_depth_witness :
  In "Freedom" (get_related_concepts star "Democracy" 1)
  /\ In "Voting" (get_related_concepts star "Democracy" 1)
  /\ get_related_concepts star "Democracy" 0 = [].
Proof.
  destruct (related_concepts_by_depth star "Democracy") as (_ & H0 & _ & H1).
  split; [|split].
  - apply H1; [reflexivity|]. split; [discriminate|]. left. simpl. tauto.
  - apply H1; [reflexivity|]. split; [discriminate|]. right. simpl. tauto.
  - apply H0. lia.
Defined.

End RelatedFacts.

(** ** More on the reasoning controller *)

Section MoreControllerFacts.

Import Nx Metacognition Histories Examples.

Lemma fast_confidence_by_count (m : MetacognitionSpace) (q : string) :
  let n := List.length (relevant_concepts (kb m) (_extract_keywords q)) in
  (n = 0 -> _fast_thinking m q = (dont_know, (0 # 1)%Q))
  /\ (n = 1 -> snd (_fast_thinking m q) = (8 # 10)%Q)
  /\ (2 <= n -> snd (_fast_thinking m q) = (5 # 10)%Q).
Proof.
  unfold _fast_thinking.
  destruct (relevant_concepts (kb m) (_extract_keywords q)) as [|c [|c' l]]; simpl;
    repeat split; intros; try reflexivity; try discriminate; lia.
Qed.

Lemma process_question_fast (m : MetacognitionSpace) (q now : string) :
  gt (snd (_fast_thinking m q)) (confidence_threshold m) = true ->
  process_question m q now = (m, fst (_fast_thinking m q)).
Proof.
  unfold process_question. destruct (_fast_thinking m q) as [a c]. simpl. now intros ->.
Qed.

Lemma process_question_slow (m : MetacognitionSpace) (q now : string) :
  gt (snd (_fast_thinking m q)) (confidence_threshold m) = false ->
  process_question m q now = _slow_thinking m q now.
Proof.
  unfold process_question. destruct (_fast_thinking m q) as [a c]. simpl. now intros ->.
Qed.

(** X9.  Which path [process_question] takes depends only on how many
    concepts match and on the threshold: it returns the fast answer, and
    logs nothing, exactly when no concept matches and the threshold is
    negative, or one matches and the threshold is below 0.8, or several
    match and it is below 0.5; otherwise it runs the slow path, which logs
    the question. *)
Theorem process_question_mode (m : MetacognitionSpace) (q now : string) :
  let n := List.length (relevant_concepts (kb m) (_extract_keywords q)) in
  let t := confidence_threshold m in
  let fast := (n = 0 /\ (t < 0)%Q) \/ (n = 1 /\ (t < 8 # 10)%Q)
              \/ (2 <= n /\ (t < 5 # 10)%Q) in
  (fast -> process_question m q now = (m, fst (_fast_thinking m q)))
  /\ (~ fast ->
      process_question m q now = _slow_thinking m q now
      /\ fst (process_question m q now) = logged m q now).
Proof.
  intros n t fast.
  destruct (fast_confidence_by_count m q) as (H0 & H1 & H2). fold n in H0, H1, H2.
  split.
  - intros Hf. apply process_question_fast. apply gt_true_iff.
    destruct Hf as [[Hn Ht]|[[Hn Ht]|[Hn Ht]]].
    + rewrite (H0 Hn). exact Ht.
    + rewrite (H1 Hn). exact Ht.
    + rewrite (H2 Hn). exact Ht.
  - intros Hnf.
    assert (Hs : process_question m q now = _slow_thinking m q now).
    { apply process_question_slow.
      destruct (gt (snd (_fast_thinking m q)) (confidence_threshold m)) eqn:E; auto.
      exfalso. apply Hnf. apply gt_true_iff in E. unfold fast. fold t in E.
      destruct n as [|[|n']].
      - left. rewrite (H0 eq_refl) in E. auto.
      - right. left. rewrite (H1 eq_refl) in E. auto.
      - right. right. rewrite H2 in E by lia. split; [lia | exact E]. }
    split; [exact Hs|]. rewrite Hs. apply slow_thinking_log.
Qed.

Lemma process_question_mode_witness :
  process_question democracy_space what_is_democracy noon
  = (democracy_space, fst (_fast_thinking democracy_space what_is_democracy)).
Proof.
  apply (process_question_mode democracy_space what_is_democracy noon).
  right. left. split; [reflexivity|]. unfold Qlt. simpl. lia.
Defined.

Lemma fast_thinking_depends_on_graph (m m' : MetacognitionSpace) (q : string) :
  kb m = kb m' -> _fast_thinking m q = _fast_thinking m' q.
Proof. unfold _fast_thinking. now intros ->. Qed.

Lemma process_question_frame (m : MetacognitionSpace) (q now : string) :
  kb (fst (process_question m q now)) = kb m
  /\ confidence_threshold (fst (process_question m q now)) = confidence_threshold m.
Proof.
  destruct (gt (snd (_fast_thinking m q)) (confidence_threshold m)) eqn:E.
  - rewrite process_question_fast by assumption. auto.
  - rewrite process_question_slow by assumption. rewrite slow_thinking_log. auto.
Qed.

(** X10.  Over a whole session the graph and the threshold of the space
    stay as they were, every question gets an answer, and the thinking log
    grows by one "deep_thinking" entry, in the order asked, for exactly
    those questions whose fast confidence did not exceed the threshold. *)
Theorem session_log (m : MetacognitionSpace) (asked : list (string * string)) :
  kb (fst (ask_all m asked)) = kb m
  /\ confidence_threshold (fst (ask_all m asked)) = confidence_threshold m
  /\ List.length (snd (ask_all m asked)) = List.length asked
  /\ thinking_log (fst (ask_all m asked))
     = (thinking_log m
        ++ map (fun qn => deep_entry (fst qn) (snd qn))
             (filter (fun qn => negb (gt (snd (_fast_thinking m (fst qn)))
                                         (confidence_threshold m)))
                     asked))%list.
Proof.
  revert m. induction asked as [|[q now] rest IH]; intros m.
  - simpl. rewrite app_nil_r. auto.
  - cbn [ask_all].
    destruct (process_question_frame m q now) as [Hk Ht].
    destruct (process_question m q now) as [m1 answer] eqn:E. cbn [fst] in Hk, Ht.
    specialize (IH m1). destruct (ask_all m1 rest) as [m2 answers]. cbn [fst snd] in *.
    destruct IH as (IHk & IHt & IHl & IHlog).
    split; [congruence|]. split; [congruence|]. split; [simpl; congruence|].
    rewrite IHlog, Ht.
    assert (Hfilter :
      filter (fun qn => negb (gt (snd (_fast_thinking m1 (fst qn))) (confidence_threshold m))) rest
      = filter (fun qn => negb (gt (snd (_fast_thinking m (fst qn))) (confidence_threshold m))) rest).
    { apply filter_ext. intros qn.
      now rewrite (fast_thinking_depends_on_graph m1 m (fst qn) Hk). }
    rewrite Hfilter. cbn [filter fst snd].
    destruct (gt (snd (_fast_thinking m q)) (confidence_threshold m)) eqn:G; cbn [negb].
    + rewrite process_question_fast in E by assumption. inversion E; subst. reflexivity.
    + rewrite process_question_slow in E by assumption.
      pose proof (slow_thinking_log m q now) as Hl. rewrite E in Hl. cbn [fst] in Hl.
      subst m1. cbn [logged thinking_log map]. now rewrite <- app_assoc.
Qed.

(** X11.  The thinking log is never consulted: two spaces over the same
    graph with the same threshold give the same answer to a question,
    whatever their logs and the time of asking.  [clear_log] empties the
    log and changes neither the graph nor the threshold, so answers after
    it are what they were before. *)
Theorem answers_ignore_log (m m' : MetacognitionSpace) (q now now' : string) :
  (kb m = kb m' -> confidence_threshold m = confidence_threshold m' ->
   snd (process_question m q now) = snd (process_question m' q now'))
  /\ get_thinking_log (clear_log m) = []
  /\ kb (clear_log m) = kb m
  /\ confidence_threshold (clear_log m) = confidence_threshold m
  /\ snd (process_question (clear_log m) q now') = snd (process_question m q now).
Proof.
  assert (H : forall a b n n', kb a = kb b ->
                confidence_threshold a = confidence_threshold b ->
                snd (process_question a q n) = snd (process_question b q n')).
  { intros a b n n' Hk Ht. unfold process_question.
    rewrite (fast_thinking_depends_on_graph a b q Hk), Ht.
    destruct (_fast_thinking b q) as [ans c].
    destruct (gt c (confidence_threshold b)); [reflexivity|].
    unfold _slow_thinking. rewrite Hk.
    destruct (relevant_concepts (kb b) (_extract_keywords q)); reflexivity. }
  split; [apply H|]. repeat split. now apply H.
Qed.

Lemma answers_ignore_log_witness :
  snd (process_question (fst (process_question fresh_space what_is_democracy noon))
         what_is_democracy "2024-01-04T09:00:00")
  = snd (process_question fresh_space what_is_democracy noon).
Proof.
  apply (answers_ignore_log (fst (process_question fresh_space what_is_democracy noon))
           fresh_space what_is_democracy "2024-01-04T09:00:00" noon); reflexivity.
Defined.

End MoreControllerFacts.

Section ThresholdFacts.

Import Nx Metacognition Examples.

Lemma contains_self (x : string) : contains x x = true.
Proof.
  apply contains_starts_with. rewrite <- (append_empty_r x) at 2. apply starts_with_app.
Qed.

Lemma contains_join (sep x : string) (xs : list string) :
  In x xs -> contains x (join sep xs) = true.
Proof.
  induction xs as [|y xs IH]; intros Hin; [destruct Hin|].
  destruct xs as [|z xs].
  - destruct Hin as [->|[]]. apply contains_self.
  - change (join sep (y :: z :: xs)) with (y ++ sep ++ join sep (z :: xs)).
    destruct Hin as [->|Hin].
    + apply contains_app_l, contains_self.
    + do 2 apply contains_app_r. now apply IH.
Qed.

(** X12.  [set_confidence_threshold] accepts exactly the thresholds in
    [0, 1], changing nothing but the threshold; any other value raises a
    [ValueError] and leaves the space alone.  Once the threshold is 0.8 or
    more, a question matching a single concept is no longer answered fast:
    it is logged and answered with the deep-analysis header followed by
    that concept's explanation. *)
Theorem set_confidence_threshold_effect (m : MetacognitionSpace) (t : Q) :
  ((0 <= t /\ t <= 1)%Q ->
   set_confidence_threshold m t
   = ({| kb := kb m; confidence_threshold := t; thinking_log := thinking_log m |}, Ok tt))
  /\ (~ (0 <= t /\ t <= 1)%Q ->
      set_confidence_threshold m t
      = (m, Raise (ValueError "Threshold must be between 0 and 1")))
  /\ (forall q now c,
        (8 # 10 <= t)%Q -> (t <= 1)%Q ->
        relevant_concepts (kb m) (_extract_keywords q) = [c] ->
        process_question (fst (set_confidence_threshold m t)) q now
        = (logged (fst (set_confidence_threshold m t)) q now,
           nl ++ "🧠 Deep Analysis:" ++ nl ++ ConceptGraph.explain_concept (kb m) c)).
Proof.
  assert (Hin : (0 <= t /\ t <= 1)%Q ->
                set_confidence_threshold m t
                = ({| kb := kb m; confidence_threshold := t;
                      thinking_log := thinking_log m |}, Ok tt)).
  { intros [H0 H1]. unfold set_confidence_threshold.
    apply Qle_bool_iff in H0, H1. now rewrite H0, H1. }
  split; [exact Hin|]. split.
  - intros Hout. unfold set_confidence_threshold.
    destruct (Qle_bool (0 # 1) t) eqn:E0; [|reflexivity].
    destruct (Qle_bool t (1 # 1)) eqn:E1; [|reflexivity].
    exfalso. apply Hout. split; now apply Qle_bool_iff.
  - intros q now c H8 H1 Hrel.
    assert (H0 : (0 <= t)%Q).
    { apply Qle_trans with (8 # 10)%Q; [|assumption]. unfold Qle. simpl. lia. }
    rewrite (Hin (conj H0 H1)). cbn [fst].
    unfold process_question, _fast_thinking. cbn [kb confidence_threshold].
    rewrite Hrel.
    assert (G : gt (8 # 10) t = false) by now apply gt_false_iff.
    rewrite G. unfold _slow_thinking. cbn [kb]. rewrite Hrel. reflexivity.
Qed.

Lemma set_confidence_threshold_effect_witness :
  process_question (fst (set_confidence_threshold democracy_space (8 # 10)%Q))
    what_is_democracy noon
  = (logged (fst (set_confidence_threshold democracy_space (8 # 10)%Q))
       what_is_democracy noon,
     nl ++ "🧠 Deep Analysis:" ++ nl
     ++ ConceptGraph.explain_concept graph_with_democracy "Democracy").
Proof.
  apply (proj2 (proj2 (set_confidence_threshold_effect democracy_space (8 # 10)%Q))
           what_is_democracy noon "Democracy").
  - unfold Qle. simpl. lia.
  - unfold Qle. simpl. lia.
  - reflexivity.
Defined.

(** X13.  When two or more concepts match and the threshold is 0.5 or more
    (the default 0.7, say), [process_question] logs the question once and
    answers with the deep analysis: the header, then the explanations of
    all the matched concepts, not only the first three, then the paths
    found between them.  Each matched concept's explanation is part of the
    answer. *)
Theorem several_matches_deep_analysis (m : MetacognitionSpace) (q now : string) :
  2 <= List.length (relevant_concepts (kb m) (_extract_keywords q)) ->
  (5 # 10 <= confidence_threshold m)%Q ->
  process_question m q now
  = (logged m q now,
     nl ++ "🧠 Deep Analysis:" ++ nl
     ++ join nl (map (ConceptGraph.explain_concept (kb m))
                     (relevant_concepts (kb m) (_extract_keywords q))
                 ++ pair_paths (kb m) (relevant_concepts (kb m) (_extract_keywords q))))
  /\ List.length (thinking_log (fst (process_question m q now)))
     = S (List.length (thinking_log m))
  /\ forall c, In c (relevant_concepts (kb m) (_extract_keywords q)) ->
               contains (ConceptGraph.explain_concept (kb m) c)
                        (snd (process_question m q now)) = true.
Proof.
  intros Hn Ht.
  assert (E : process_question m q now
              = (logged m q now,
                 nl ++ "🧠 Deep Analysis:" ++ nl
                 ++ join nl (map (ConceptGraph.explain_concept (kb m))
                                 (relevant_concepts (kb m) (_extract_keywords q))
                             ++ pair_paths (kb m)
                                  (relevant_concepts (kb m) (_extract_keywords q))))).
  { unfold process_question, _fast_thinking, _slow_thinking.
    destruct (relevant_concepts (kb m) (_extract_keywords q)) as [|c [|c' l]];
      [simpl in Hn; lia | simpl in Hn; lia |].
    assert (G : gt (5 # 10) (confidence_threshold m) = false) by now apply gt_false_iff.
    now rewrite G. }
  rewrite E. cbn [fst snd logged thinking_log]. split; [reflexivity|]. split.
  - rewrite length_app. simpl. lia.
  - intros c Hc. do 3 apply contains_app_r. apply contains_join.
    apply in_or_app. left. now apply in_map.
Qed.

Lemma several_matches_deep_analysis_witness :
  relevant_concepts (kb star_space) (_extract_keywords voting_and_freedom)
  = ["Freedom"; "Voting"]
  /\ List.length (thinking_log (fst (process_question star_space voting_and_freedom noon))) = 1.
Proof.
  split; [reflexivity|].
  apply (several_matches_deep_analysis star_space voting_and_freedom noon).
  - vm_compute. lia.
  - unfold Qle. simpl. lia.
Defined.

(** X14.  [analyze_confidence] foretells [process_question]: it reports
    system 1 exactly when the question would get the fast answer with no
    log entry, and system 2 exactly when the slow path would run.  The
    confidence it reports is 0.0 for no matching concept, 0.8 for one and
    0.5 for more. *)
Theorem analyze_confidence_foretells (m : MetacognitionSpace) (q now : string) :
  (will_use_system (analyze_confidence m q) = 1
   \/ will_use_system (analyze_confidence m q) = 2)
  /\ (will_use_system (analyze_confidence m q) = 1 <->
      process_question m q now = (m, fst (_fast_thinking m q)))
  /\ (will_use_system (analyze_confidence m q) = 2 <->
      process_question m q now = _slow_thinking m q now)
  /\ (relevant_concepts_found (analyze_confidence m q) = 0 ->
      confidence (analyze_confidence m q) = (0 # 1)%Q)
  /\ (relevant_concepts_found (analyze_confidence m q) = 1 ->
      confidence (analyze_confidence m q) = (8 # 10)%Q)
  /\ (2 <= relevant_concepts_found (analyze_confidence m q) ->
      confidence (analyze_confidence m q) = (5 # 10)%Q).
Proof.
  destruct (fast_confidence_by_count m q) as (H0 & H1 & H2).
  unfold analyze_confidence.
  cbn [will_use_system relevant_concepts_found confidence].
  assert (Hne : logged m q now <> m).
  { intros H. apply (f_equal thinking_log) in H. cbn [logged thinking_log] in H.
    apply (f_equal (@List.length log_entry)) in H. rewrite length_app in H. simpl in H. lia. }
  destruct (gt (snd (_fast_thinking m q)) (confidence_threshold m)) eqn:G.
  - split; [now left|]. split; [|split].
    + split; [intros _; now apply process_question_fast | reflexivity].
    + split; [discriminate|]. intros H. exfalso.
      rewrite process_question_fast in H by assumption.
      apply (f_equal fst) in H. rewrite slow_thinking_log in H. cbn [fst] in H. congruence.
    + split; [intros H; now rewrite (H0 H)|]. split; auto.
  - split; [now right|]. split; [|split].
    + split; [discriminate|]. intros H. exfalso.
      rewrite process_question_slow in H by assumption.
      apply (f_equal fst) in H. rewrite slow_thinking_log in H. cbn [fst] in H. congruence.
    + split; [intros _; now apply process_question_slow | reflexivity].
    + split; [intros H; now rewrite (H0 H)|]. split; auto.
Qed.

Lemma analyze_confidence_foretells_witness :
  will_use_system (analyze_confidence star_space voting_and_freedom) = 2
  /\ process_question star_space voting_and_freedom noon
     = _slow_thinking star_space voting_and_freedom noon.
Proof.
  split; [reflexivity|].
  apply (analyze_confidence_foretells star_space voting_and_freedom noon). reflexivity.
Defined.

End ThresholdFacts.

Section KeywordFacts.

Import Nx Metacognition Examples.

Lemma chars_app (a b : string) :
  list_ascii_of_string (a ++ b) = (list_ascii_of_string a ++ list_ascii_of_string b)%list.
Proof. induction a as [|c a IH]; simpl; [reflexivity | now rewrite IH]. Qed.

Lemma lower_ascii_idempotent (c : ascii) : lower_ascii (lower_ascii c) = lower_ascii c.
Proof. destruct c as [[] [] [] [] [] [] [] []]; reflexivity. Qed.

Lemma lower_ascii_keeps_ascii (c : ascii) :
  is_ascii c = true -> is_ascii (lower_ascii c) = true.
Proof. destruct c as [[] [] [] [] [] [] [] []]; vm_compute; auto. Qed.

Lemma lower_chars (s : string) :
  is_ascii_text s = true ->
  Forall (fun c => lower_ascii c = c /\ is_ascii c = true)
         (list_ascii_of_string (lower s)).
Proof.
  unfold is_ascii_text. induction s as [|c s IH]; simpl; intros H; constructor.
  - apply andb_true_iff in H as [Hc _].
    split; [apply lower_ascii_idempotent | now apply lower_ascii_keeps_ascii].
  - apply andb_true_iff in H as [_ Hs]. now apply IH.
Qed.

Lemma lower_fixed (w : string) :
  Forall (fun c => lower_ascii c = c) (list_ascii_of_string w) -> lower w = w.
Proof.
  induction w as [|c w IH]; simpl; intros H; [reflexivity|].
  inversion H; subst. now rewrite IH; [congruence|].
Qed.

Lemma remove_char_chars (P : ascii -> Prop) (x : ascii) (s : string) :
  Forall P (list_ascii_of_string s) ->
  Forall (fun c => P c /\ c <> x) (list_ascii_of_string (remove_char x s)).
Proof.
  induction s as [|d s IH]; simpl; intros H; [constructor|].
  inversion H; subst.
  destruct (Ascii.eqb x d) eqn:E; [now apply IH|].
  simpl. constructor; [|now apply IH].
  split; [assumption|]. apply Ascii.eqb_neq in E. congruence.
Qed.

(** The tokens of [s.split()] are not empty and are made of characters of
    [s] that are not separators. *)
Lemma split_from_tokens (P : ascii -> Prop) (s : string) :
  Forall P (list_ascii_of_string s) ->
  forall cur acc,
    Forall (fun c => P c /\ is_space c = false) (list_ascii_of_string cur) ->
    Forall (fun w => w <> ""
                     /\ Forall (fun c => P c /\ is_space c = false) (list_ascii_of_string w))
           acc ->
    Forall (fun w => w <> ""
                     /\ Forall (fun c => P c /\ is_space c = false) (list_ascii_of_string w))
           (split_from s cur acc).
Proof.
  assert (Hflush : forall cur acc,
    Forall (fun c => P c /\ is_space c = false) (list_ascii_of_string cur) ->
    Forall (fun w => w <> ""
                     /\ Forall (fun c => P c /\ is_space c = false) (list_ascii_of_string w))
           acc ->
    Forall (fun w => w <> ""
                     /\ Forall (fun c => P c /\ is_space c = false) (list_ascii_of_string w))
           (flush cur acc)).
  { intros cur acc Hc Ha. destruct cur as [|c cur]; [exact Ha|].
    cbn [flush]. apply Forall_app. split; [exact Ha|].
    constructor; [|constructor]. split; [discriminate | exact Hc]. }
  induction s as [|c s IH]; intros Hs cur acc Hc Ha; cbn [split_from].
  - now apply Hflush.
  - simpl in Hs. inversion Hs; subst.
    destruct (is_space c) eqn:E.
    + apply IH; [assumption | constructor | now apply Hflush].
    + apply IH; [assumption | | assumption].
      rewrite chars_app. apply Forall_app. split; [exact Hc|].
      simpl. repeat constructor; auto.
Qed.

(** X15.  For a question of ASCII text, every keyword [_extract_keywords]
    returns is ASCII text of at least three characters, is no stop word,
    is in lower case, and contains no question mark, comma or white
    space. *)
Theorem extracted_keywords_shape (q w : string) :
  is_ascii_text q = true ->
  In w (_extract_keywords q) ->
  is_ascii_text w = true
  /\ 3 <= String.length w
  /\ ~ In w stop_words
  /\ lower w = w
  /\ Forall (fun c => c <> "?"%char /\ c <> ","%char /\ is_space c = false)
       (list_ascii_of_string w).
Proof.
  unfold _extract_keywords. intros Hq Hin. apply filter_In in Hin as [Hin Hf].
  apply andb_true_iff in Hf as [Hstop Hlen].
  pose proof (remove_char_chars _ ","%char _
                (remove_char_chars _ "?"%char _ (lower_chars q Hq))) as Hchars.
  pose proof (split_from_tokens _ _ Hchars "" [] (Forall_nil _) (Forall_nil _)) as Htok.
  rewrite Forall_forall in Htok. destruct (Htok w Hin) as [_ Hw].
  split.
  { unfold is_ascii_text. apply forallb_forall. intros c Hc.
    rewrite Forall_forall in Hw. destruct (Hw c Hc) as [[[[_ Ha] _] _] _]. exact Ha. }
  split; [apply Nat.ltb_lt in Hlen; lia|].
  split.
  { intros H. apply mem_str_iff in H. rewrite H in Hstop. discriminate. }
  split.
  - apply lower_fixed. eapply Forall_impl; [|exact Hw]. cbv beta. tauto.
  - eapply Forall_impl; [|exact Hw]. cbv beta. tauto.
Qed.

Lemma extracted_keywords_shape_witness :
  is_ascii_text "What is Democracy, really?" = true
  /\ In "democracy" (_extract_keywords "What is Democracy, really?")
  /\ lower "democracy" = "democracy".
Proof.
  split; [reflexivity|]. split; [vm_compute; tauto|].
  apply (extracted_keywords_shape "What is Democracy, really?" "democracy");
    [reflexivity | vm_compute; tauto].
Defined.

End KeywordFacts.

(** ** More on the ideology store *)

Section MoreStoreFacts.

Import Ideology Histories Examples.

Lemma in_unit_interval_all (core_values : dict Q) :
  (forall k w, In (k, w) core_values -> (0 <= w /\ w <= 1)%Q) ->
  forallb in_unit_interval (map snd core_values) = true.
Proof.
  intros H. apply forallb_forall. intros w Hin.
  apply in_map_iff in Hin as ([k w'] & Hw & Hin). simpl in Hw. subst w'.
  apply in_unit_interval_iff. eauto.
Qed.

(** [examples or []] *)
Lemma examples_or_empty (examples : option (list string)) :
  match examples with
  | Some (e :: es) => e :: es
  | _ => []
  end
  = match examples with
    | Some l => l
    | None => []
    end.
Proof. destruct examples as [[|e es]|]; reflexivity. Qed.

(** X17.  A valid [teach_ideology] can be read back: [get_ideology]
    returns the values, principles, description and examples just given,
    in place of whatever the name held before.  Every other ideology is
    untouched, and [list_ideologies] gains the name at its end when it is
    new and is unchanged when it is re-taught. *)
Theorem teach_then_get_ideology (st : store) (name : string) (core_values : dict Q)
    (principles : list string) (description : string) (examples : option (list string)) :
  (forall k w, In (k, w) core_values -> (0 <= w /\ w <= 1)%Q) ->
  snd (teach_ideology st name core_values principles description examples)
  = Ok ("✓ Learned ideology: " ++ name)
  /\ get_ideology (fst (teach_ideology st name core_values principles description examples))
       name
     = Some {| values := core_values;
               principles := principles;
               description := description;
               examples := match examples with
                           | Some l => l
                           | None => []
                           end |}
  /\ (forall other, other <> name ->
        get_ideology (fst (teach_ideology st name core_values principles description examples))
          other
        = get_ideology st other)
  /\ list_ideologies (fst (teach_ideology st name core_values principles description examples))
     = (if dict_mem st name then list_ideologies st
        else (list_ideologies st ++ [name])%list).
Proof.
  intros Hval. apply in_unit_interval_all in Hval.
  unfold teach_ideology. rewrite Hval. cbn [negb fst snd].
  unfold get_ideology, list_ideologies. rewrite examples_or_empty.
  split; [reflexivity|]. split; [apply dict_get_set_same|]. split.
  - intros other Hne. apply dict_get_set_other. congruence.
  - destruct (dict_mem st name) eqn:E.
    + now apply dict_keys_set_present.
    + now apply dict_keys_set_absent.
Qed.

Lemma teach_then_get_ideology_witness :
  list_ideologies libertarian_store = ["Libertarianism"]
  /\ get_ideology libertarian_store "Libertarianism"
     = Some {| values := libertarian_values;
               principles := ["Minimize government intervention"];
               description := "Liberty first";
               examples := [] |}.
Proof.
  destruct (teach_then_get_ideology init "Libertarianism" libertarian_values
              ["Minimize government intervention"] "Liberty first" None)
    as (_ & Hget & _ & Hlist).
  - intros k w [H|[H|[]]]; inversion H; subst; unfold Qle; simpl; lia.
  - split; [exact Hlist | exact Hget].
Defined.

Lemma dict_get_filter_other {V : Type} (d : dict V) (name other : string) :
  other <> name ->
  dict_get (filter (fun kv => negb (String.eqb name (fst kv))) d) other = dict_get d other.
Proof.
  intros Hne. induction d as [|[k v] d IH]; simpl; auto.
  destruct (String.eqb name k) eqn:E; simpl.
  - apply String.eqb_eq in E. subst k.
    assert (E' : String.eqb other name = false) by now apply String.eqb_neq.
    now rewrite E'.
  - now rewrite IH.
Qed.

Lemma dict_get_filter_same {V : Type} (d : dict V) (name : string) :
  dict_get (filter (fun kv => negb (String.eqb name (fst kv))) d) name = None.
Proof.
  induction d as [|[k v] d IH]; simpl; auto.
  destruct (String.eqb name k) eqn:E; simpl; auto. now rewrite E.
Qed.

Lemma filter_absent {V : Type} (d : dict V) (name : string) :
  dict_mem d name = false ->
  filter (fun kv => negb (String.eqb name (fst kv))) d = d.
Proof.
  unfold dict_mem. induction d as [|[k v] d IH]; simpl; intros H; auto.
  destruct (String.eqb name k) eqn:E; [discriminate|]. simpl. now rewrite IH.
Qed.

(** X18.  [remove_ideology] answers whether the name was stored.  If it
    was, the name is gone afterwards and every other ideology is as before;
    if it was not, the store is unchanged.  Teaching a new name and
    removing it again gives back the store one started from. *)
Theorem remove_ideology_effect (st : store) (name : string) :
  snd (remove_ideology st name) = dict_mem st name
  /\ get_ideology (fst (remove_ideology st name)) name = None
  /\ (forall other, other <> name ->
        get_ideology (fst (remove_ideology st name)) other = get_ideology st other)
  /\ (dict_mem st name = false -> remove_ideology st name = (st, false))
  /\ (forall core_values principles description examples,
        dict_mem st name = false ->
        fst (remove_ideology
               (fst (teach_ideology st name core_values principles description examples))
               name)
        = st).
Proof.
  unfold remove_ideology, get_ideology.
  split; [now destruct (dict_mem st name)|]. split; [|split; [|split]].
  - destruct (dict_mem st name) eqn:E; cbn [fst].
    + apply dict_get_filter_same.
    + unfold dict_mem in E. now destruct (dict_get st name).
  - intros other Hne. destruct (dict_mem st name); cbn [fst]; [|reflexivity].
    now apply dict_get_filter_other.
  - now intros ->.
  - intros cv pr desc ex Habs. unfold teach_ideology.
    destruct (negb (forallb in_unit_interval (map snd cv))); cbn [fst].
    + now rewrite Habs.
    + rewrite dict_mem_set_same. cbn [fst].
      clear -Habs. unfold dict_mem in Habs.
      induction st as [|[k v] st IH]; simpl.
      * now rewrite String.eqb_refl.
      * simpl in Habs. destruct (String.eqb name k) eqn:E; [discriminate|].
        simpl. rewrite E. simpl. now rewrite IH.
Qed.

Lemma remove_ideology_effect_witness :
  fst (remove_ideology libertarian_store "Libertarianism") = init.
Proof.
  apply (proj2 (proj2 (proj2 (proj2 (remove_ideology_effect init "Libertarianism"))))
           libertarian_values ["Minimize government intervention"] "Liberty first" None).
  reflexivity.
Defined.

Lemma in_dict_set {V : Type} (d : dict V) (k : string) (v : V) (k' : string) (v' : V) :
  In (k', v') (dict_set d k v) -> (k' = k /\ v' = v) \/ In (k', v') d.
Proof.
  induction d as [|[k0 v0] d IH]; simpl.
  - intros [H|[]]. inversion H. auto.
  - destruct (String.eqb k k0) eqn:E; simpl.
    + apply String.eqb_eq in E. subst k0. intros [H|H]; [inversion H; auto | auto].
    + intros [H|H]; [auto|]. destruct (IH H); auto.
Qed.

Lemma nodup_keys_filter {V : Type} (f : string * V -> bool) (d : dict V) :
  NoDup (dict_keys d) -> NoDup (dict_keys (filter f d)).
Proof.
  unfold dict_keys. induction d as [|[k v] d IH]; simpl; intros H; [constructor|].
  inversion H as [|? ? Hnot Hnd]; subst.
  destruct (f (k, v)); simpl; [|now apply IH].
  constructor; [|now apply IH].
  intros Hin. apply Hnot. apply in_map_iff in Hin as (x & Hx & Hf).
  apply filter_In in Hf as [Hf _]. apply in_map_iff. eauto.
Qed.

(** X19.  However [teach_ideology] and [remove_ideology] calls, accepted
    or rejected, follow one another from an empty store, no name is listed
    twice and every stored weight lies in [0, 1]. *)
Theorem taught_store_invariants (st : store) :
  taught st ->
  NoDup (list_ideologies st)
  /\ forall name i k w,
       In (name, i) st -> In (k, w) (values i) -> (0 <= w /\ w <= 1)%Q.
Proof.
  induction 1 as [|st name cv pr desc ex Hst [IHn IHw]|st name Hst [IHn IHw]].
  - split; [constructor | intros ? ? ? ? []].
  - unfold teach_ideology.
    destruct (forallb in_unit_interval (map snd cv)) eqn:F; cbn [negb fst];
      [|split; assumption].
    split.
    + now apply dict_keys_set_nodup.
    + intros n i k w Hin Hk. apply in_dict_set in Hin as [[-> ->]|Hin]; [|eauto].
      cbn [values] in Hk. apply in_unit_interval_iff.
      rewrite forallb_forall in F. apply F.
      change w with (snd (k, w)). now apply in_map.
  - unfold remove_ideology. destruct (dict_mem st name); cbn [fst]; [|split; assumption].
    split.
    + now apply nodup_keys_filter.
    + intros n i k w Hin Hk. apply filter_In in Hin as [Hin _]. eauto.
Qed.

Lemma taught_libertarian_store : taught libertarian_store.
Proof. unfold libertarian_store. repeat constructor. Qed.

Lemma taught_store_invariants_witness :
  taught libertarian_store /\ NoDup (list_ideologies libertarian_store).
Proof.
  split; [exact taught_libertarian_store|].
  apply (taught_store_invariants libertarian_store). exact taught_libertarian_store.
Defined.

End MoreStoreFacts.

(** ** More on the perspective analyzer *)

Section RankingFacts.

Import Ideology IdeologySpec Examples.

Lemma igt_true_iff (a b : Q) : gt a b = true <-> (b < a)%Q.
Proof.
  unfold gt. rewrite negb_true_iff. split.
  - intros H. apply Qnot_le_lt. intros Hle. apply Qle_bool_iff in Hle. congruence.
  - intros H. destruct (Qle_bool a b) eqn:E; auto.
    apply Qle_bool_iff in E. exfalso. exact (Qlt_not_le _ _ H E).
Qed.

Lemma igt_false_iff (a b : Q) : gt a b = false <-> (a <= b)%Q.
Proof. unfold gt. rewrite negb_false_iff. apply Qle_bool_iff. Qed.

Lemma insert_desc_perm (x : string * Q) (l : list (string * Q)) :
  Permutation (insert_desc x l) (x :: l).
Proof.
  induction l as [|y l IH]; simpl; [reflexivity|].
  destruct (gt (snd y) (snd x)); [|reflexivity].
  rewrite IH. apply perm_swap.
Qed.

Lemma insert_desc_hd (y x : string * Q) (l : list (string * Q)) :
  HdRel ranked y l -> ranked y x -> HdRel ranked y (insert_desc x l).
Proof.
  intros Hl Hx. destruct l as [|z l]; simpl; [now constructor|].
  inversion Hl; subst. destruct (gt (snd z) (snd x)); now constructor.
Qed.

Lemma insert_desc_sorted (x : string * Q) (l : list (string * Q)) :
  Sorted ranked l -> Sorted ranked (insert_desc x l).
Proof.
  induction l as [|y l IH]; simpl; intros Hs; [repeat constructor|].
  inversion Hs as [|? ? Hl Hhd]; subst.
  destruct (gt (snd y) (snd x)) eqn:G.
  - constructor; [now apply IH|]. apply insert_desc_hd; [assumption|].
    apply igt_true_iff in G. unfold ranked. now apply Qlt_le_weak.
  - constructor; [assumption|]. constructor. apply igt_false_iff in G. exact G.
Qed.

Lemma insert_desc_stable (w : Q) (x : string * Q) (l : list (string * Q)) :
  filter (fun p => Qeq_bool (snd p) w) (insert_desc x l)
  = filter (fun p => Qeq_bool (snd p) w) (x :: l).
Proof.
  induction l as [|y l IH]; [reflexivity|].
  cbn [insert_desc]. destruct (gt (snd y) (snd x)) eqn:G; [|reflexivity].
  cbn [filter] in *. rewrite IH.
  destruct (Qeq_bool (snd y) w) eqn:Ey; [|reflexivity].
  destruct (Qeq_bool (snd x) w) eqn:Ex; [|reflexivity].
  exfalso. apply igt_true_iff in G. apply Qeq_bool_iff in Ey, Ex.
  rewrite Ey, Ex in G. exact (Qlt_irrefl _ G).
Qed.

(** X20.  The ranking used in the report, [sorted_desc], lists every value
    of the ideology exactly once, in order of non-increasing weight, and
    keeps values of equal weight in the order in which they were given. *)
Theorem sorted_desc_ranks (items : list (string * Q)) :
  Permutation (sorted_desc items) items
  /\ Sorted (fun x y => (snd y <= snd x)%Q) (sorted_desc items)
  /\ forall w, filter (fun p => Qeq_bool (snd p) w) (sorted_desc items)
               = filter (fun p => Qeq_bool (snd p) w) items.
Proof.
  split; [|split].
  - induction items as [|x items IH]; simpl; [constructor|].
    rewrite insert_desc_perm. now constructor.
  - induction items as [|x items IH]; simpl; [constructor|].
    now apply insert_desc_sorted.
  - intros w. induction items as [|x items IH]; [reflexivity|].
    cbn [sorted_desc]. rewrite insert_desc_stable. cbn [filter]. now rewrite IH.
Qed.

Lemma max_from_tail (ys : list (string * Q)) :
  forall b y,
    max_from b (y :: ys)
    = if gt (snd (max_from y ys)) (snd b) then max_from y ys else b.
Proof.
  induction ys as [|z zs IH]; intros b y; [reflexivity|].
  change (max_from b (y :: z :: zs))
    with (max_from (if gt (snd y) (snd b) then y else b) (z :: zs)).
  rewrite (IH (if gt (snd y) (snd b) then y else b) z), (IH y z).
  destruct (gt (snd y) (snd b)) eqn:Gyb;
    destruct (gt (snd (max_from z zs)) (snd y)) eqn:Gmy.
  - assert (G : gt (snd (max_from z zs)) (snd b) = true).
    { apply igt_true_iff in Gyb, Gmy. apply igt_true_iff. now apply Qlt_trans with (snd y). }
    now rewrite G.
  - now rewrite Gyb.
  - reflexivity.
  - assert (G : gt (snd (max_from z zs)) (snd b) = false).
    { apply igt_false_iff in Gyb, Gmy. apply igt_false_iff. now apply Qle_trans with (snd y). }
    now rewrite G, Gyb.
Qed.

Lemma sorted_desc_head (xs : list (string * Q)) :
  forall x, exists rest, sorted_desc (x :: xs) = max_from x xs :: rest.
Proof.
  induction xs as [|y ys IH]; intros x; [now exists []|].
  destruct (IH y) as [rest Hr].
  change (sorted_desc (x :: y :: ys)) with (insert_desc x (sorted_desc (y :: ys))).
  rewrite Hr, max_from_tail. cbn [insert_desc].
  destruct (gt (snd (max_from y ys)) (snd x)); eauto.
Qed.

Lemma max_from_ge_start (xs : list (string * Q)) :
  forall b, (snd b <= snd (max_from b xs))%Q.
Proof.
  induction xs as [|x xs IH]; intros b; simpl; [apply Qle_refl|].
  destruct (gt (snd x) (snd b)) eqn:G; [|apply IH].
  apply Qle_trans with (snd x); [|apply IH].
  apply igt_true_iff in G. now apply Qlt_le_weak.
Qed.

Lemma max_from_ge (xs : list (string * Q)) :
  forall b e, In e xs -> (snd e <= snd (max_from b xs))%Q.
Proof.
  induction xs as [|x xs IH]; intros b e Hin; [destruct Hin|].
  simpl. destruct Hin as [->|Hin]; [|now apply IH].
  destruct (gt (snd e) (snd b)) eqn:G.
  - apply max_from_ge_start.
  - apply Qle_trans with (snd b); [now apply igt_false_iff | apply max_from_ge_start].
Qed.

Lemma max_from_in (xs : list (string * Q)) :
  forall b, In (max_from b xs) (b :: xs).
Proof.
  induction xs as [|x xs IH]; intros b; simpl; [now left|].
  destruct (IH (if gt (snd x) (snd b) then x else b)) as [H|H]; [|now right; right].
  rewrite <- H. destruct (gt (snd x) (snd b)); auto.
Qed.

(** X21.  For an ideology with values, when neither keyword rule returns,
    the recommendation names the value of greatest weight, the first such
    value given; it is the value the report ranks first. *)
Theorem default_recommendation_is_top_ranked (situation : string) (values : dict Q)
    (principles : list string) :
  values <> [] ->
  exists top rest,
    max_item values = Ok top
    /\ sorted_desc values = top :: rest
    /\ In top values
    /\ (forall k w, In (k, w) values -> (w <= snd top)%Q)
    /\ (government_rule (lower situation) values = None ->
        economy_rule (lower situation) values = None ->
        _generate_recommendation situation values principles
        = Ok ("  → Prioritize " ++ fst top ++ " in decision-making process.")).
Proof.
  intros Hne. destruct values as [|x xs]; [congruence|].
  destruct (sorted_desc_head xs x) as [rest Hr].
  exists (max_from x xs), rest.
  split; [reflexivity|]. split; [exact Hr|]. split; [apply max_from_in|]. split.
  - intros k w [Heq|Hin].
    + subst x. apply (max_from_ge_start xs (k, w)).
    + apply (max_from_ge xs x (k, w) Hin).
  - intros Hg He. unfold _generate_recommendation. now rewrite Hg, He.
Qed.

Lemma default_recommendation_is_top_ranked_witness :
  _generate_recommendation "A quiet afternoon" libertarian_values []
  = Ok "  → Prioritize freedom in decision-making process.".
Proof.
  destruct (default_recommendation_is_top_ranked "A quiet afternoon" libertarian_values [])
    as (top & rest & Hmax & _ & _ & _ & Hrec); [discriminate|].
  inversion Hmax; subst top. apply Hrec; reflexivity.
Defined.

End RankingFacts.

Section AnalysisOutcomes.

Import Ideology IdeologySpec Examples.

Variable bar : Q -> string.
Variable fixed2 : Q -> string.

Lemma analyze_empty_values (st : store) (situation name : string) (i : ideology) :
  dict_get st name = Some i -> values i = [] ->
  analyze_from_perspective bar fixed2 st situation name
  = Raise (ValueError "max() arg is an empty sequence").
Proof.
  intros Hget Hv. unfold analyze_from_perspective. rewrite Hget.
  unfold _generate_recommendation, government_rule, economy_rule. rewrite Hv.
  destruct (mentions government_words (lower situation));
    destruct (mentions economy_words (lower situation)); reflexivity.
Qed.

(** X22.  [analyze_from_perspective] has three outcomes: for a name that
    is not stored, the text saying so; for a stored ideology with at least
    one value, a report ending in a recommendation; for a stored ideology
    with no values, a [ValueError], whatever the situation. *)
Theorem analyze_outcomes (st : store) (situation name : string) :
  (dict_get st name = None ->
   analyze_from_perspective bar fixed2 st situation name
   = Ok ("I haven't learned about " ++ name ++ " yet."))
  /\ (forall i, dict_get st name = Some i -> values i <> [] ->
        exists r,
          _generate_recommendation situation (values i) (principles i) = Ok r
          /\ analyze_from_perspective bar fixed2 st situation name
             = Ok (report bar fixed2 situation name i r))
  /\ (forall i, dict_get st name = Some i -> values i = [] ->
        analyze_from_perspective bar fixed2 st situation name
        = Raise (ValueError "max() arg is an empty sequence")).
Proof.
  split; [|split].
  - intros H. unfold analyze_from_perspective. now rewrite H.
  - intros i Hget Hne. unfold analyze_from_perspective. rewrite Hget.
    destruct (_generate_recommendation situation (values i) (principles i)) as [r|e] eqn:E.
    + exists r. split; reflexivity.
    + exfalso. unfold _generate_recommendation in E.
      destruct (government_rule (lower situation) (values i)); [discriminate|].
      destruct (economy_rule (lower situation) (values i)); [discriminate|].
      destruct (values i); [congruence | discriminate].
  - intros i. apply analyze_empty_values.
Qed.

Lemma mapM_raises {A B : Type} (f : A -> result B) (xs : list A) :
  (exists e, mapM f xs = Raise e) <-> (exists x e, In x xs /\ f x = Raise e).
Proof.
  induction xs as [|x xs IH]; simpl.
  - split; [intros [e H]; discriminate | intros (x & e & [] & _)].
  - destruct (f x) as [y|e] eqn:E; simpl.
    + destruct (mapM f xs) as [ys|e'] eqn:M; simpl.
      * split; [intros [e H]; discriminate|].
        intros (x' & e & [Hx|Hx] & H); [subst; congruence|].
        destruct (proj2 IH (ex_intro _ x' (ex_intro _ e (conj Hx H)))) as [e0 H0].
        discriminate.
      * split; [|eauto]. intros _.
        destruct (proj1 IH (ex_intro _ e' eq_refl)) as (x' & e0 & Hin & H0). eauto.
    + split; [|eauto]. intros _. exists x, e. auto.
Qed.

(** X23.  [compare_perspectives] raises exactly when one of the requested
    names is a stored ideology without values.  When none of the requested
    names is stored it returns the header followed by the synthesis line
    "No valid ideologies to synthesize.", with no analysis in between. *)
Theorem compare_outcomes (st : store) (situation : string) (names : list string) :
  ((exists name i, In name names /\ dict_get st name = Some i /\ values i = [])
   <-> (exists e, compare_perspectives bar fixed2 st situation names = Raise e))
  /\ ((forall name, In name names -> dict_mem st name = false) ->
      compare_perspectives bar fixed2 st situation names
      = Ok (compare_header situation ++ nl ++ "🎯 Synthesis:" ++ nl
            ++ "No valid ideologies to synthesize.")).
Proof.
  split.
  - unfold compare_perspectives. rewrite compare_loop_spec.
    pose proof (mapM_raises (analyze_from_perspective bar fixed2 st situation)
                  (filter (dict_mem st) names)) as HM.
    split.
    + intros (name & i & Hin & Hget & Hv).
      assert (Hex : exists e, mapM (analyze_from_perspective bar fixed2 st situation)
                                (filter (dict_mem st) names) = Raise e).
      { apply HM. exists name. eexists. split.
        - apply filter_In. split; [assumption|]. unfold dict_mem. now rewrite Hget.
        - now apply (analyze_empty_values st situation name i). }
      destruct Hex as [e He]. rewrite He. exists e. reflexivity.
    + intros [e He].
      destruct (mapM (analyze_from_perspective bar fixed2 st situation)
                  (filter (dict_mem st) names)) as [rs|e'] eqn:M; [discriminate|].
      assert (Hex : exists x e0, In x (filter (dict_mem st) names)
                                 /\ analyze_from_perspective bar fixed2 st situation x
                                    = Raise e0) by (apply HM; eauto).
      destruct Hex as (name & e0 & Hin & Hr).
      apply filter_In in Hin as [Hin Hm].
      unfold dict_mem in Hm. destruct (dict_get st name) as [i|] eqn:Hget; [|discriminate].
      exists name, i. split; [assumption|]. split; [exact Hget|].
      destruct (values i) as [|v vs] eqn:Hv; [reflexivity|].
      destruct (analyze_returns bar fixed2 st situation name i Hget) as [r Hr'];
        [rewrite Hv; discriminate | congruence].
  - intros Hnone.
    assert (Hf : filter (dict_mem st) names = []).
    { induction names as [|n names IH]; [reflexivity|].
      simpl. rewrite (Hnone n) by now left. apply IH. intros x Hx. apply Hnone. now right. }
    unfold compare_perspectives. rewrite compare_loop_spec, Hf.
    cbn [mapM bind map concat_str fold_right].
    unfold _synthesize_perspectives. rewrite Hf. now rewrite append_empty_r.
Qed.

End AnalysisOutcomes.

Section AnalysisSamples.

Import Ideology IdeologySpec Examples.

Lemma analyze_outcomes_witness :
  analyze_from_perspective no_bar plain_weight hollow_store "Anything at all" "Hollow"
  = Raise (ValueError "max() arg is an empty sequence").
Proof.
  apply (proj2 (proj2 (analyze_outcomes no_bar plain_weight hollow_store
                         "Anything at all" "Hollow"))
           {| values := []; principles := ["Nothing matters"];
              description := ""; examples := [] |});
    reflexivity.
Defined.

Lemma compare_outcomes_witness :
  compare_perspectives no_bar plain_weight libertarian_store "New regulation proposed"
    ["Socialism"; "Unknown"]
  = Ok (compare_header "New regulation proposed" ++ nl ++ "🎯 Synthesis:" ++ nl
        ++ "No valid ideologies to synthesize.").
Proof.
  apply (proj2 (compare_outcomes no_bar plain_weight libertarian_store
                  "New regulation proposed" ["Socialism"; "Unknown"])).
  intros name [<-|[<-|[]]]; reflexivity.
Defined.

End AnalysisSamples.

(** ** The path search returns paths of the graph *)

Section SearchSoundness.

Import Nx ConceptGraph SearchSpec Histories Examples.

Lemma length_dict_set_absent {V : Type} (d : dict V) (k : string) (v : V) :
  dict_mem d k = false -> List.length (dict_set d k v) = S (List.length d).
Proof.
  intros H. pose proof (dict_keys_set_absent d k v H) as E.
  apply (f_equal (@List.length string)) in E.
  unfold dict_keys in E. rewrite length_app, !length_map in E. simpl in E. lia.
Qed.

Lemma dict_mem_set_mono {V : Type} (d : dict V) (k x : string) (v : V) :
  dict_mem d x = true -> dict_mem (dict_set d k v) x = true.
Proof.
  unfold dict_mem. intros H. destruct (String.eqb k x) eqn:E.
  - apply String.eqb_eq in E. subst. now rewrite dict_get_set_same.
  - apply String.eqb_neq in E. now rewrite dict_get_set_other.
Qed.

Lemma search_tree_root (nbrs : string -> list string) (root : string) :
  search_tree nbrs root [(root, None)].
Proof.
  exists (fun _ => 0). intros w p H. simpl in H.
  destruct (String.eqb w root) eqn:E; [|discriminate].
  apply String.eqb_eq in E. inversion H; subst. simpl. auto.
Qed.

Lemma search_tree_set (nbrs : string -> list string) (root : string) (seen : parents)
    (w v : string) :
  search_tree nbrs root seen ->
  dict_mem seen w = false -> dict_mem seen v = true -> In w (nbrs v) ->
  search_tree nbrs root (dict_set seen w (Some v)).
Proof.
  intros [d Hd] Hw Hv Hin.
  assert (Hvw : v <> w) by (intros ->; congruence).
  assert (Hdv : d v < List.length seen).
  { unfold dict_mem in Hv. destruct (dict_get seen v) as [pv|] eqn:E; [|discriminate].
    exact (proj1 (Hd v pv E)). }
  exists (fun x => if String.eqb x w then S (d v) else d x).
  intros u p Hu. rewrite length_dict_set_absent by assumption.
  destruct (String.eqb u w) eqn:Euw.
  - apply String.eqb_eq in Euw. subst u. rewrite dict_get_set_same in Hu.
    inversion Hu; subst p. split; [lia|].
    split; [now apply dict_mem_set_mono|]. split; [assumption|].
    apply String.eqb_neq in Hvw. rewrite Hvw. lia.
  - apply String.eqb_neq in Euw.
    rewrite dict_get_set_other in Hu by congruence.
    destruct (Hd u p Hu) as [Hlt Hp]. split; [lia|].
    destruct p as [v'|]; [|exact Hp].
    destruct Hp as (Hm & Hn & Hlt').
    split; [now apply dict_mem_set_mono|]. split; [assumption|].
    assert (Hv'w : String.eqb v' w = false).
    { apply String.eqb_neq. intros ->. congruence. }
    now rewrite Hv'w.
Qed.

(** What one pass over the neighbours of a node of the tree keeps. *)
Lemma scan_neighbours_tree (nbrs : string -> list string) (root v : string)
    (other : parents) (ws : list string) :
  (forall w, In w ws -> In w (nbrs v)) ->
  forall seen fringe,
    search_tree nbrs root seen -> dict_mem seen v = true ->
    (forall x, In x fringe -> dict_mem seen x = true) ->
    match scan_neighbours ws v seen other fringe with
    | Found seen' w =>
        search_tree nbrs root seen'
        /\ dict_mem seen' w = true /\ dict_mem other w = true
    | Continue seen' fringe' =>
        search_tree nbrs root seen'
        /\ (forall x, dict_mem seen x = true -> dict_mem seen' x = true)
        /\ (forall x, In x fringe' -> dict_mem seen' x = true)
    end.
Proof.
  induction ws as [|w ws IH]; intros Hws seen fringe Ht Hv Hf; cbn [scan_neighbours].
  - auto.
  - assert (Hstep :
      search_tree nbrs root (if dict_mem seen w then seen else dict_set seen w (Some v))
      /\ (forall x, dict_mem seen x = true ->
                    dict_mem (if dict_mem seen w then seen else dict_set seen w (Some v)) x
                    = true)
      /\ dict_mem (if dict_mem seen w then seen else dict_set seen w (Some v)) w = true
      /\ (forall x, In x (if dict_mem seen w then fringe else (fringe ++ [w])%list) ->
                    dict_mem (if dict_mem seen w then seen else dict_set seen w (Some v)) x
                    = true)).
    { destruct (dict_mem seen w) eqn:Ew.
      - repeat split; auto.
      - split; [apply search_tree_set; auto; apply Hws; now left|].
        split; [intros x Hx; now apply dict_mem_set_mono|].
        split; [apply dict_mem_set_same|].
        intros x Hx. apply in_app_iff in Hx as [Hx|[<-|[]]].
        + apply dict_mem_set_mono. auto.
        + apply dict_mem_set_same. }
    destruct Hstep as (Ht' & Hmono & Hw & Hf').
    destruct (dict_mem other w) eqn:Eo; [auto|].
    specialize (IH (fun x Hx => Hws x (or_intror Hx)) _ _ Ht' (Hmono v Hv) Hf').
    destruct (scan_neighbours ws v _ other _) as [seen' w'|seen' fringe']; [exact IH|].
    destruct IH as (H1 & H2 & H3). repeat split; auto.
Qed.

Lemma scan_level_tree (nbrs : string -> list string) (root : string) (other : parents)
    (level : list string) :
  forall seen fringe,
    search_tree nbrs root seen ->
    (forall v, In v level -> dict_mem seen v = true) ->
    (forall x, In x fringe -> dict_mem seen x = true) ->
    match scan_level nbrs level seen other fringe with
    | Found seen' w =>
        search_tree nbrs root seen'
        /\ dict_mem seen' w = true /\ dict_mem other w = true
    | Continue seen' fringe' =>
        search_tree nbrs root seen'
        /\ (forall x, In x fringe' -> dict_mem seen' x = true)
    end.
Proof.
  induction level as [|v vs IH]; intros seen fringe Ht Hl Hf; cbn [scan_level].
  - auto.
  - pose proof (scan_neighbours_tree nbrs root v other (nbrs v) (fun w H => H)
                  seen fringe Ht (Hl v (or_introl eq_refl)) Hf) as H.
    destruct (scan_neighbours (nbrs v) v seen other fringe) as [seen1 w|seen1 fringe1];
      [exact H|].
    destruct H as (Ht1 & Hmono & Hf1).
    apply IH; auto. intros x Hx. apply Hmono, Hl. now right.
Qed.

Lemma search_loop_meet (G : DiGraph) (source target : string) :
  forall fuel pred succ forward_fringe reverse_fringe pred' succ' w,
    search_tree (successors G) source pred ->
    search_tree (predecessors G) target succ ->
    (forall x, In x forward_fringe -> dict_mem pred x = true) ->
    (forall x, In x reverse_fringe -> dict_mem succ x = true) ->
    search_loop fuel G pred succ forward_fringe reverse_fringe = Meet pred' succ' w ->
    search_tree (successors G) source pred'
    /\ search_tree (predecessors G) target succ'
    /\ dict_mem pred' w = true /\ dict_mem succ' w = true.
Proof.
  induction fuel as [|fuel IH]; intros pred succ ff rf pred' succ' w Hp Hs Hff Hrf H;
    [discriminate|].
  cbn [search_loop] in H.
  destruct ff as [|f ff]; [discriminate|].
  destruct rf as [|r rf]; [discriminate|].
  destruct (Nat.leb (List.length (f :: ff)) (List.length (r :: rf))).
  - pose proof (scan_level_tree (successors G) source succ (f :: ff) pred [] Hp Hff
                  (fun x (Hx : In x []) => match Hx with end)) as Hscan.
    destruct (scan_level (successors G) (f :: ff) pred succ []) as [p1 w1|p1 fr1].
    + inversion H; subst. destruct Hscan as (H1 & H2 & H3). auto.
    + destruct Hscan as (H1 & H2). eapply IH; eauto.
  - pose proof (scan_level_tree (predecessors G) target pred (r :: rf) succ [] Hs Hrf
                  (fun x (Hx : In x []) => match Hx with end)) as Hscan.
    destruct (scan_level (predecessors G) (r :: rf) succ pred []) as [s1 w1|s1 fr1].
    + inversion H; subst. destruct Hscan as (H1 & H2 & H3). auto.
    + destruct Hscan as (H1 & H2). eapply IH; eauto.
Qed.

Lemma last_default {A : Type} (l : list A) (x d d' : A) :
  List.last (x :: l) d = List.last (x :: l) d'.
Proof.
  revert x. induction l as [|y l IH]; intros x; [reflexivity|].
  change (List.last (y :: l) d = List.last (y :: l) d'). apply IH.
Qed.

Lemma walk_none (fuel : nat) (seen : parents) : walk fuel seen None = [].
Proof. now destruct fuel. Qed.

(** Walking up a tree from one of its nodes reaches the root, within as
    many steps as the node's number. *)
Lemma walk_tree (nbrs : string -> list string) (root : string) (seen : parents)
    (d : string -> nat) :
  (forall w p, dict_get seen w = Some p ->
     d w < List.length seen
     /\ match p with
        | None => w = root
        | Some v => dict_mem seen v = true /\ In w (nbrs v) /\ d v < d w
        end) ->
  forall n w, d w <= n -> dict_mem seen w = true ->
    exists chain,
      (forall fuel, n < fuel -> walk fuel seen (Some w) = w :: chain)
      /\ linked nbrs (w :: chain)
      /\ List.last (w :: chain) w = root.
Proof.
  intros Hd. induction n as [|n IH]; intros w Hn Hm;
    unfold dict_mem in Hm; destruct (dict_get seen w) as [p|] eqn:E; try discriminate;
    destruct (Hd w p E) as [_ Hp]; destruct p as [v|].
  - destruct Hp as (_ & _ & Hlt). lia.
  - exists []. subst w. repeat split. intros [|fuel] Hf; [lia|].
    cbn [walk]. rewrite E. now rewrite walk_none.
  - destruct Hp as (Hv & Hin & Hlt).
    destruct (IH v ltac:(lia) Hv) as (chain & Hwalk & Hlink & Hlast).
    exists (v :: chain). split; [|split].
    + intros [|fuel] Hf; [lia|]. cbn [walk]. rewrite E. now rewrite Hwalk by lia.
    + split; assumption.
    + rewrite <- Hlast. change (List.last (w :: v :: chain) w) with (List.last (v :: chain) w).
      apply last_default.
  - exists []. subst w. repeat split. intros [|fuel] Hf; [lia|].
    cbn [walk]. rewrite E. now rewrite walk_none.
Qed.

Lemma relationship_in_some (es : list (string * string * string)) (u v r : string) :
  In (u, v, r) es -> exists r', relationship_in es u v = Some r'.
Proof.
  induction es as [|[[u' v'] r'] es IH]; intros Hin; [destruct Hin|].
  simpl. destruct (andb (String.eqb u u') (String.eqb v v')) eqn:E; [eauto|].
  destruct Hin as [H|H]; [|auto].
  inversion H; subst. now rewrite !String.eqb_refl in E.
Qed.

Lemma successors_has_edge (G : DiGraph) (u v : string) :
  In v (successors G u) -> has_edge G u v = true.
Proof.
  unfold successors, has_edge, relationship. intros H.
  apply in_map_iff in H as ([[a b] r] & Hb & Hin). simpl in Hb. subst b.
  apply filter_In in Hin as [Hin Ha]. simpl in Ha. apply String.eqb_eq in Ha. subst a.
  destruct (relationship_in_some _ _ _ _ Hin) as [r' ->]. reflexivity.
Qed.

Lemma predecessors_has_edge (G : DiGraph) (u v : string) :
  In u (predecessors G v) -> has_edge G u v = true.
Proof.
  unfold predecessors, has_edge, relationship. intros H.
  apply in_map_iff in H as ([[a b] r] & Ha & Hin). simpl in Ha. subst a.
  apply filter_In in Hin as [Hin Hb]. simpl in Hb. apply String.eqb_eq in Hb. subst b.
  destruct (relationship_in_some _ _ _ _ Hin) as [r' ->]. reflexivity.
Qed.

Lemma is_walk_join (G : DiGraph) (l : list string) (x y : string) (q : list string) :
  is_walk G (l ++ [x]) -> is_walk G (y :: q) -> has_edge G x y = true ->
  is_walk G (l ++ x :: y :: q).
Proof.
  intros Hl Hq He. induction l as [|a l IH]; [now split|].
  destruct l as [|b l].
  - simpl in *. tauto.
  - change (is_walk G (a :: b :: (l ++ [x])%list)) in Hl.
    change (is_walk G (a :: b :: (l ++ x :: y :: q)%list)).
    cbn [is_walk] in Hl |- *. destruct Hl as [Hab Hl]. split; [assumption|].
    apply IH. exact Hl.
Qed.

Lemma linked_successors_rev (G : DiGraph) (l : list string) :
  linked (successors G) l -> is_walk G (rev l).
Proof.
  induction l as [|a l IH]; intros H; [exact I|].
  destruct l as [|b l]; [exact I|].
  cbn [linked] in H. destruct H as [Hab Hl].
  change (rev (a :: b :: l)) with ((rev l ++ [b]) ++ [a])%list.
  rewrite <- app_assoc. cbn [app].
  apply is_walk_join; [exact (IH Hl) | exact I | now apply successors_has_edge].
Qed.

Lemma linked_predecessors_walk (G : DiGraph) (l : list string) :
  linked (predecessors G) l -> is_walk G l.
Proof.
  induction l as [|a l IH]; intros H; [exact I|].
  destruct l as [|b l]; [exact I|].
  cbn [linked] in H. destruct H as [Hab Hl].
  cbn [is_walk]. split; [now apply predecessors_has_edge | now apply IH].
Qed.

Lemma last_app_cons {A : Type} (l : list A) (x : A) (q : list A) (d : A) :
  List.last (l ++ x :: q) d = List.last (x :: q) d.
Proof.
  induction l as [|a l IH]; [reflexivity|].
  rewrite <- IH. destruct l; reflexivity.
Qed.

Lemma rev_head {A : Type} (l : list A) (x d : A) :
  exists rest, rev (x :: l) = List.last (x :: l) d :: rest.
Proof.
  exists (rev (removelast (x :: l))).
  transitivity (rev (removelast (x :: l) ++ [List.last (x :: l) d])).
  - f_equal. apply app_removelast_last. discriminate.
  - now rewrite rev_app_distr.
Qed.

Lemma meeting_point_path (G : DiGraph) (source target w : string) (pred succ : parents) :
  search_tree (successors G) source pred ->
  search_tree (predecessors G) target succ ->
  dict_mem pred w = true -> dict_mem succ w = true ->
  let back := rev (walk (S (List.length pred)) pred (Some w)) in
  let p := (back ++ walk (S (List.length succ)) succ
                     (match dict_get succ (List.last back w) with
                      | Some q => q
                      | None => None
                      end))%list in
  (exists rest, p = source :: rest) /\ List.last p source = target /\ is_walk G p.
Proof.
  intros [df Hdf] [dr Hdr] Hp Hs.
  assert (Hw1 : df w < List.length pred).
  { unfold dict_mem in Hp. destruct (dict_get pred w) as [pw|] eqn:E; [|discriminate].
    exact (proj1 (Hdf w pw E)). }
  destruct (walk_tree (successors G) source pred df Hdf (df w) w (le_n _) Hp)
    as (cf & Hwalkf & Hlinkf & Hlastf).
  rewrite (Hwalkf (S (List.length pred))) by lia.
  cbv zeta.
  assert (Hlast : List.last (rev (w :: cf)) w = w).
  { cbn [rev]. apply last_last. }
  rewrite Hlast.
  destruct (rev_head cf w w) as [rest Hrest]. rewrite Hlastf in Hrest.
  pose proof (linked_successors_rev G _ Hlinkf) as Hwf.
  unfold dict_mem in Hs. destruct (dict_get succ w) as [[v|]|] eqn:E; [| |discriminate].
  - destruct (Hdr w (Some v) E) as (_ & Hv & Hin & Hlt).
    assert (Hv1 : dr v < List.length succ).
    { unfold dict_mem in Hv. destruct (dict_get succ v) as [pv|] eqn:Ev; [|discriminate].
      exact (proj1 (Hdr v pv Ev)). }
    destruct (walk_tree (predecessors G) target succ dr Hdr (dr v) v (le_n _) Hv)
      as (cr & Hwalkr & Hlinkr & Hlastr).
    rewrite (Hwalkr (S (List.length succ))) by lia.
    split; [|split].
    + rewrite Hrest. cbn [app]. eauto.
    + rewrite last_app_cons. rewrite <- Hlastr. apply last_default.
    + cbn [rev] in *. rewrite <- app_assoc. cbn [app].
      apply is_walk_join; [exact Hwf | now apply linked_predecessors_walk
                          | now apply predecessors_has_edge].
  - destruct (Hdr w None E) as (_ & Hroot). subst w.
    rewrite walk_none, app_nil_r.
    split; [|split].
    + rewrite Hrest. eauto.
    + cbn [rev]. apply last_last.
    + exact Hwf.
Qed.

(** X25.  A path returned by the search between two concepts is a path of
    the graph: it starts at the source, ends at the target, and each of its
    steps follows a stored relationship in its direction. *)
Theorem shortest_path_is_a_walk (G : DiGraph) (source target : string) (p : list string) :
  shortest_path G source target = Path p ->
  has_node G source = true /\ has_node G target = true
  /\ (exists rest, p = source :: rest)
  /\ List.last p source = target
  /\ is_walk G p.
Proof.
  unfold shortest_path.
  destruct (has_node G source) eqn:Hs; [|discriminate].
  destruct (has_node G target) eqn:Ht; [|discriminate].
  cbn [negb orb].
  destruct (_bidirectional_pred_succ G source target) as [pred succ w| |] eqn:E;
    try discriminate.
  intros H. inversion H as [Hp]. clear H.
  split; [reflexivity|]. split; [reflexivity|].
  assert (Hinv : search_tree (successors G) source pred
                 /\ search_tree (predecessors G) target succ
                 /\ dict_mem pred w = true /\ dict_mem succ w = true).
  { unfold _bidirectional_pred_succ in E.
    destruct (String.eqb target source) eqn:Eq.
    - apply String.eqb_eq in Eq. subst target. inversion E; subst.
      repeat split; try apply search_tree_root; apply dict_mem_set_same with (d := []).
    - apply (search_loop_meet G source target _ _ _ _ _ _ _ _
               (search_tree_root _ source) (search_tree_root _ target)) in E; auto.
      + intros x [<-|[]]. apply dict_mem_set_same with (d := []).
      + intros x [<-|[]]. apply dict_mem_set_same with (d := []). }
  destruct Hinv as (H1 & H2 & H3 & H4).
  exact (meeting_point_path G source target w pred succ H1 H2 H3 H4).
Qed.

Lemma shortest_path_is_a_walk_witness :
  shortest_path star "Voting" "Freedom" = Path ["Voting"; "Democracy"; "Freedom"]
  /\ is_walk star ["Voting"; "Democracy"; "Freedom"].
Proof.
  split; [reflexivity|].
  apply (shortest_path_is_a_walk star "Voting" "Freedom"). reflexivity.
Defined.

End SearchSoundness.
